(** * billion-row-table: sparse row index, index codec, slicer, viewport

    A shallow embedding of the TypeScript sources
      - backend/src/indexer.ts  (buildIndex, saveIndex, loadIndex,
                                 getOrBuildIndex),
      - backend/src/slicer.ts   (Slicer.getSlice, Slicer.parseRows,
                                 computeSliceParams),
      - backend/src/types.ts    (FileIndex, Config, TOTAL_COLS, COL_LETTERS),
      - frontend lib/grid.ts    (columnIndexToLetters),
    and the properties of the specification checked against them.

    Conventions.  A JavaScript [number] that holds an integer is a [Z]
    (all arithmetic below stays inside the safe-integer range on real
    inputs, where [Math.floor (a / b)] is [a / b] of [Z] for [b <> 0]);
    a [bigint] is a [Z]; a [BigUint64Array] is a [list Z] whose entries are
    reduced modulo [2^64] when the array is created; a [Uint8Array] or an
    [ArrayBuffer] is a [list byte]; the file system is a finite map from
    paths to file contents. *)

From Stdlib Require Import ZArith Lia List.
From Stdlib Require Import Strings.String Strings.Ascii Strings.Byte.
From stdpp Require Import gmap strings list fin_maps.

Local Open Scope Z_scope.

(** ** Bytes *)

Abbreviation byte := Corelib.Init.Byte.byte.

Definition NEWLINE : byte := Byte.x0a.
Definition SEMICOLON : byte := Byte.x3b.

Definition byte_to_Z (b : byte) : Z := Z.of_N (Byte.to_N b).

(** The byte holding [z mod 256]. *)
Definition byte_of_Z (z : Z) : byte :=
  default Byte.x00 (Byte.of_N (Z.to_N (z mod 256))).

Definition is_newline (b : byte) : bool := Byte.eqb b NEWLINE.

(** A file made of the given records, each followed by the line terminator. *)
Definition terminated (records : list (list byte)) : list byte :=
  flat_map (fun r => r ++ [NEWLINE]) records.

(** ** types.ts *)

Record FileIndex := mkFileIndex {
  totalRows : Z;
  offsets : list Z;
  granularity : Z
}.

Record Config := mkConfig {
  filePath : string;
  port : Z;
  indexGranularity : Z;
  indexPath : option string
}.

Definition TOTAL_COLS : Z := 2.
Definition COL_LETTERS : list string := ["A"%string; "B"%string].

(** ** JavaScript library functions used by the sources *)

(** [Math.floor(a / b)] and [Math.ceil(a / b)] on integers, [b <> 0]. *)
Definition Math_floor_div (a b : Z) : Z := a / b.
Definition Math_ceil_div (a b : Z) : Z := - ((- a) / b).

(** The relative index of [Array.prototype.slice] and [Blob.prototype.slice]:
    a negative argument counts from the end, and the result is clamped to
    [0 .. len]. *)
Definition relativeIndex (len k : Z) : Z :=
  if k <? 0 then Z.max (len + k) 0 else Z.min k len.

Definition Array_slice {A} (l : list A) (start stop : Z) : list A :=
  let len := Z.of_nat (length l) in
  let from := relativeIndex len start in
  let to := relativeIndex len stop in
  take (Z.to_nat (to - from)) (drop (Z.to_nat from) l).

(** [a[k]] on a typed array: [undefined] out of range. *)
Definition typedArray_get (a : list Z) (k : Z) : option Z :=
  if k <? 0 then None else a !! Z.to_nat k.

(** [String.fromCharCode(c)] for a code below 256. *)
Definition fromCharCode (c : Z) : ascii := ascii_of_N (Z.to_N c).

(** Exceptions the sources can raise. *)
Inductive error : Type :=
  | RangeError   (* DataView access or typed-array length out of bounds *)
  | ENOENT.      (* reading a file that does not exist *)

(** ** indexer.ts: buildIndex *)

(** [new BigUint64Array(offsets)]: every bigint is stored modulo [2^64]. *)
Definition BigUint64Array_from (l : list Z) : list Z :=
  map (fun o => o mod 2 ^ 64) l.

(** The mutable locals of [buildIndex] that the byte scan updates. *)
Record ScanState := mkScan {
  scan_offsets : list Z;
  scan_totalRows : Z;
  scan_rowsSinceLastIndex : Z
}.

(** The body of [for (let i = 0; i < chunk.length; i++)] at one byte. *)
Definition scanByte (granularity currentOffset i : Z) (b : byte)
    (st : ScanState) : ScanState :=
  if is_newline b then
    let totalRows' := scan_totalRows st + 1 in
    let rowsSince' := scan_rowsSinceLastIndex st + 1 in
    if granularity <=? rowsSince' then
      mkScan (scan_offsets st ++ [currentOffset + i + 1]) totalRows' 0
    else
      mkScan (scan_offsets st) totalRows' rowsSince'
  else st.

(** The [for] loop over one chunk, from local index [i] on. *)
Fixpoint scanChunk (granularity currentOffset : Z) (chunk : list byte)
    (i : Z) (st : ScanState) : ScanState :=
  match chunk with
  | [] => st
  | b :: rest =>
      scanChunk granularity currentOffset rest (i + 1)
        (scanByte granularity currentOffset i b st)
  end.

(** The [while (!done)] loop: the stream delivers the file as a sequence of
    chunks; [currentOffset] grows by the length of each. *)
Fixpoint scanStream (granularity : Z) (chunks : list (list byte))
    (currentOffset : Z) (st : ScanState) : ScanState :=
  match chunks with
  | [] => st
  | chunk :: more =>
      scanStream granularity more
        (currentOffset + Z.of_nat (length chunk))
        (scanChunk granularity currentOffset chunk 0 st)
  end.

Definition buildIndex (chunks : list (list byte)) (granularity : Z)
    : FileIndex :=
  let st := scanStream granularity chunks 0 (mkScan [0] 0 0) in
  mkFileIndex (scan_totalRows st)
              (BigUint64Array_from (scan_offsets st))
              granularity.

(** ** indexer.ts: the index codec and the cache *)

(** The messages the indexer writes to the console, one constructor for
    each kind; their variable parts, the progress lines and the statistics
    after a build or a load are left out. *)
Inductive LogLine : Type :=
  | LogBuilding      (* "[indexer] Building index for ..." *)
  | LogCompleted     (* "[indexer] Completed in ..." *)
  | LogSaving        (* "[indexer] Saving index to ..." *)
  | LogSaved         (* "[indexer] Index saved ..." *)
  | LogNoCache       (* "[indexer] No cached index found at ..." *)
  | LogLoading       (* "[indexer] Loading cached index from ..." *)
  | LogLoaded        (* "[indexer] Index loaded in ..." *)
  | LogStale.        (* "[indexer] Cached index seems stale, rebuilding..." *)

(** What the indexer sees and changes outside itself: the files and the
    console. *)
Record World := mkWorld {
  files : gmap string (list byte);
  console : list LogLine
}.

(** A computation either returns a value or throws; both leave a world. *)
Inductive Outcome (A : Type) : Type :=
  | Returned (a : A) (w : World)
  | Thrown (e : error) (w : World).
Arguments Returned {A} a w.
Arguments Thrown {A} e w.

Definition IO (A : Type) : Type := World -> Outcome A.

Definition throw {A} (e : error) : IO A := fun w => Thrown e w.

#[global] Instance IO_ret : MRet IO := fun A a w => Returned a w.
#[global] Instance IO_bind : MBind IO := fun A B k m w =>
  match m w with
  | Returned a w' => k a w'
  | Thrown e w' => Thrown e w'
  end.

Definition log (l : LogLine) : IO unit :=
  fun w => Returned tt (mkWorld (files w) (console w ++ [l])).
Definition Bun_exists (path : string) : IO bool :=
  fun w => Returned (bool_decide (is_Some (files w !! path))) w.
(** [Bun.file(path).size]: 0 for a file that does not exist. *)
Definition Bun_size (path : string) : IO Z :=
  fun w => Returned (from_option (fun d => Z.of_nat (length d)) 0
                                 (files w !! path)) w.
Definition Bun_arrayBuffer (path : string) : IO (list byte) :=
  fun w => match files w !! path with
           | Some d => Returned d w
           | None => Thrown ENOENT w
           end.
Definition Bun_write (path : string) (buffer : list byte) : IO unit :=
  fun w => Returned tt (mkWorld (<[path := buffer]> (files w)) (console w)).

(** [n] little-endian bytes of [v]. *)
Fixpoint le_bytes (n : nat) (v : Z) : list byte :=
  match n with
  | O => []
  | S n' => byte_of_Z v :: le_bytes n' (v / 256)
  end.

(** The value of a little-endian byte sequence. *)
Fixpoint le_value (l : list byte) : Z :=
  match l with
  | [] => 0
  | b :: l' => byte_to_Z b + 256 * le_value l'
  end.

(** [view.setBigUint64(_, v, true)] writes these eight bytes. *)
Definition setBigUint64 (v : Z) : list byte := le_bytes 8 (v mod 2 ^ 64).

(** [view.getBigUint64(byteOffset, true)]: a [RangeError] unless the eight
    bytes lie inside the buffer. *)
Definition getBigUint64 (buffer : list byte) (byteOffset : nat) : IO Z :=
  if (length buffer <? byteOffset + 8)%nat then throw RangeError
  else mret (le_value (take 8 (drop byteOffset buffer))).

(** The raw bytes of a [BigUint64Array] (little-endian platform). *)
Definition BigUint64Array_buffer (a : list Z) : list byte :=
  flat_map (le_bytes 8) a.

(** The first [n] 64-bit elements held by a buffer. *)
Fixpoint u64_elements (n : nat) (buffer : list byte) : list Z :=
  match n with
  | O => []
  | S n' => le_value (take 8 buffer) :: u64_elements n' (drop 8 buffer)
  end.

(** [new BigUint64Array(buffer)]: a [RangeError] unless the byte length is
    a multiple of 8. *)
Definition BigUint64Array_of_buffer (buffer : list byte) : IO (list Z) :=
  if (length buffer mod 8 =? 0)%nat
  then mret (u64_elements (length buffer / 8) buffer)
  else throw RangeError.

Definition saveIndex (index : FileIndex) (path : string) : IO unit :=
  log LogSaving ;;
  let buffer :=
    setBigUint64 (totalRows index) ++ setBigUint64 (granularity index)
      ++ BigUint64Array_buffer (offsets index) in
  Bun_write path buffer ;;
  log LogSaved.

(** [Number(...)] of a 64-bit value read from the header is taken to be
    the value itself.  This is exact below [2^53], beyond any real row
    count; above, the source rounds the value to a double, which this
    model does not follow. *)
Definition loadIndex (path : string) : IO (option FileIndex) :=
  present ← Bun_exists path;
  if negb present then
    log LogNoCache ;; mret None
  else
    log LogLoading ;;
    buffer ← Bun_arrayBuffer path;
    totalRows ← getBigUint64 buffer 0;
    granularity ← getBigUint64 buffer 8;
    offsets ← BigUint64Array_of_buffer (drop 16 buffer);
    log LogLoaded ;;
    mret (Some (mkFileIndex totalRows offsets granularity)).

Section Indexer.
(** How the platform cuts a file into the chunks of its stream. *)
Variable stream : list byte -> list (list byte).

(** [buildIndex(config)]: open the file of the configuration, stream it
    through the scan above. *)
Definition buildIndexIO (config : Config) : IO FileIndex :=
  log LogBuilding ;;
  data ← Bun_arrayBuffer (filePath config);
  let index := buildIndex (stream data) (indexGranularity config) in
  log LogCompleted ;;
  mret index.

(** A string is truthy when it is not empty. *)
Definition truthy (p : option string) : option string :=
  match p with
  | Some s => if String.eqb s EmptyString then None else Some s
  | None => None
  end.

(** The end of [getOrBuildIndex], which every path that does not return
    the cached index runs: build, save when a path is configured, return
    the fresh index. *)
Definition rebuild (config : Config) : IO FileIndex :=
  index ← buildIndexIO config;
  match truthy (indexPath config) with
  | Some path => saveIndex index path ;; mret index
  | None => mret index
  end.

Definition getOrBuildIndex (config : Config) : IO FileIndex :=
  match truthy (indexPath config) with
  | Some path =>
      cached ← loadIndex path;
      match cached with
      | Some cached =>
          size ← Bun_size (filePath config);
          let expectedMinRows := Math_floor_div size 50 in
          let expectedMaxRows := Math_ceil_div size 5 in
          if (expectedMinRows <=? totalRows cached)
             && (totalRows cached <=? expectedMaxRows)
          then mret cached
          else log LogStale ;; rebuild config
      | None => rebuild config
      end
  | None => rebuild config
  end.
End Indexer.

(** ** slicer.ts *)

Definition READ_BUFFER_SIZE : Z := 32 * 1024.

Record SliceResponse := mkSliceResponse {
  resp_startRow : Z;
  resp_rowCount : Z;
  resp_startCol : Z;
  resp_colCount : Z;
  resp_colLetters : list string;
  resp_cellsByRow : list (list string)
}.

(** The fields of a [Slicer] object; [file] is the content of the data file
    and [fileSize] its size when the slicer was constructed. *)
Record Slicer := mkSlicer {
  file : list byte;
  fileSize : Z;
  index : FileIndex
}.

Definition newSlicer (content : list byte) (index : FileIndex) : Slicer :=
  mkSlicer content (Z.of_nat (length content)) index.

(** [readBytes(offset, length)] is [file.slice(offset, offset + length)]. *)
Definition readBytes (s : Slicer) (offset length : Z) : list byte :=
  Array_slice (file s) offset (offset + length).

(** The first loop of [parseRows].  The position [pos] is kept as the bytes
    from [pos] on: [pos < data.length] holds when they are not empty. *)
Fixpoint skipLoop (rest : list byte) (rowsSkipped skipRows : Z) : list byte :=
  match rest with
  | [] => []
  | b :: rest' =>
      if rowsSkipped <? skipRows then
        skipLoop rest' (if is_newline b then rowsSkipped + 1 else rowsSkipped)
                 skipRows
      else rest
  end.

(** The scan for [lineEnd]: the bytes [pos .. lineEnd) and the bytes from
    [lineEnd] on. *)
Fixpoint scanLine (rest : list byte) : list byte * list byte :=
  match rest with
  | [] => ([], [])
  | b :: rest' =>
      if is_newline b then ([], rest)
      else let (line, after) := scanLine rest' in (b :: line, after)
  end.

(** The two cells of a decoded line. *)
Definition splitLine (line : string) : list string :=
  match String.index 0 ";" line with
  | None => [line; ""%string]
  | Some semicolonIdx =>
      [ substring 0 semicolonIdx line;
        substring (S semicolonIdx)
                  (String.length line - S semicolonIdx) line ]
  end.

(** [while (slicedCells.length < colCount) slicedCells.push("")]. *)
Definition padCells (slicedCells : list string) (colCount : Z) : list string :=
  slicedCells
    ++ replicate (Z.to_nat (colCount - Z.of_nat (length slicedCells)))
                 ""%string.

Section Slicing.
(** [new TextDecoder().decode]: UTF-8 decoding with replacement of
    malformed sequences; it never fails. *)
Variable decode : list byte -> string.

(** The second loop of [parseRows]; every iteration moves [pos] forward,
    so the fuel [data.length + 1] given below is never used up. *)
Fixpoint parseLoop (fuel : nat) (rest : list byte) (rows : list (list string))
    (maxRows startCol colCount : Z) : option (list (list string)) :=
  match fuel with
  | O => None
  | S fuel' =>
      match rest with
      | [] => Some rows
      | _ :: _ =>
          if Z.of_nat (length rows) <? maxRows then
            let (lineBytes, after) := scanLine rest in
            match lineBytes with
            | [] => parseLoop fuel' (drop 1 after) rows
                              maxRows startCol colCount
            | _ :: _ =>
                let cells := splitLine (decode lineBytes) in
                let slicedCells :=
                  Array_slice cells startCol (startCol + colCount) in
                parseLoop fuel' (drop 1 after)
                          (rows ++ [padCells slicedCells colCount])
                          maxRows startCol colCount
            end
          else Some rows
      end
  end.

Definition parseRows (data : list byte)
    (skipRows maxRows startCol colCount : Z) : option (list (list string)) :=
  parseLoop (S (length data)) (skipLoop data 0 skipRows) []
            maxRows startCol colCount.

(** [getSlice].  [None] stands for the two ways out of the integer model:
    a zero granularity or an index entry outside [offsets], where the
    source goes on with [Infinity], [undefined] and [NaN]; and a parse
    loop that ran out of fuel (which never happens). *)
Definition getSlice (s : Slicer) (startRow rowCount startCol colCount : Z)
    : option SliceResponse :=
  let startRow := Z.max 0 (Z.min startRow (totalRows (index s) - 1)) in
  let rowCount := Z.min rowCount (totalRows (index s) - startRow) in
  let startCol := Z.max 0 (Z.min startCol (TOTAL_COLS - 1)) in
  let colCount := Z.min colCount (TOTAL_COLS - startCol) in
  let response (rows : list (list string)) :=
    mkSliceResponse startRow (Z.of_nat (length rows)) startCol colCount
      (Array_slice COL_LETTERS startCol (startCol + colCount)) rows in
  if rowCount <=? 0 then
    Some (mkSliceResponse startRow 0 startCol colCount
            (Array_slice COL_LETTERS startCol (startCol + colCount)) [])
  else if granularity (index s) =? 0 then None
  else
    let indexEntry := Math_floor_div startRow (granularity (index s)) in
    indexOffset ← typedArray_get (offsets (index s)) indexEntry;
    let rowsToSkip := startRow - indexEntry * granularity (index s) in
    let estimatedBytesNeeded := (rowsToSkip + rowCount) * 30 in
    let bytesToRead :=
      Z.min (Z.max estimatedBytesNeeded READ_BUFFER_SIZE)
            (fileSize s - indexOffset) in
    let chunk := readBytes s indexOffset bytesToRead in
    rows ← parseRows chunk rowsToSkip rowCount startCol colCount;
    let got := Z.of_nat (length rows) in
    if (got <? rowCount) && (startRow + got <? totalRows (index s)) then
      let additionalBytesNeeded := (rowCount - got) * 50 in
      let newBytesToRead :=
        Z.min (bytesToRead + additionalBytesNeeded)
              (fileSize s - indexOffset) in
      if bytesToRead <? newBytesToRead then
        let largerChunk := readBytes s indexOffset newBytesToRead in
        moreRows ← parseRows largerChunk rowsToSkip rowCount
                             startCol colCount;
        Some (response moreRows)
      else Some (response rows)
    else Some (response rows).
End Slicing.

(** On bytes below [0x80] the decoder yields the characters with these
    codes. *)
Definition decodeAscii (l : list byte) : string := string_of_list_byte l.

(** ** slicer.ts: computeSliceParams *)

Record Viewport := mkViewport {
  screenWidth : Z;
  screenHeight : Z;
  horizontalBuffer : Z;
  verticalBuffer : Z;
  defaultColumnWidth : Z;
  defaultRowHeight : Z;
  scrollLeft : Z;
  scrollTop : Z;
  maxRows : Z;
  maxCols : Z
}.

Record SliceParams := mkSliceParams {
  startRow : Z;
  rowCount : Z;
  startCol : Z;
  colCount : Z
}.

(** [None] when a divisor is zero: the source then computes with
    [Infinity] or [NaN], outside the integer model. *)
Definition computeSliceParams (params : Viewport) : option SliceParams :=
  if (defaultRowHeight params =? 0) || (defaultColumnWidth params =? 0)
  then None
  else
    let startRow := Math_floor_div (scrollTop params) (defaultRowHeight params) in
    let visibleRows :=
      Math_ceil_div (screenHeight params) (defaultRowHeight params) in
    let rowCount := visibleRows + verticalBuffer params * 2 in
    let remainingRows := maxRows params - startRow in
    let rowCount := if remainingRows <? rowCount then remainingRows
                    else rowCount in
    let startCol :=
      Math_floor_div (scrollLeft params) (defaultColumnWidth params) in
    let visibleCols :=
      Math_ceil_div (screenWidth params) (defaultColumnWidth params) in
    let colCount := visibleCols + horizontalBuffer params * 2 in
    let remainingCols := maxCols params - startCol in
    let colCount := if remainingCols <? colCount then remainingCols
                    else colCount in
    let rowCount := Z.min rowCount 1000 in
    let colCount := Z.min colCount 200 in
    Some (mkSliceParams (Z.max 0 startRow) (Z.max 0 rowCount)
                        (Z.max 0 startCol) (Z.max 0 colCount)).

(** ** grid.ts: columnIndexToLetters *)

(** The [while (true)] loop.  [n] shrinks at least 26-fold in every
    iteration, so 32 iterations are more than a 32-bit [n] can take. *)
Fixpoint lettersLoop (fuel : nat) (n : Z) (chars : list ascii)
    : option (list ascii) :=
  match fuel with
  | O => None
  | S fuel' =>
      let rem := n mod 26 in
      let chars := chars ++ [fromCharCode (65 + rem)] in
      let n := Math_floor_div n 26 in
      if n =? 0 then Some chars else lettersLoop fuel' (n - 1) chars
  end.

(** [index >>> 0] is [index] modulo [2^32]. *)
Definition columnIndexToLetters (index : Z) : option string :=
  let n := index mod 2 ^ 32 in
  chars ← lettersLoop 32 n [];
  Some (string_of_list_ascii (rev chars)).

(** ** The seed file of the specification *)

Definition bytes (s : string) : list byte := list_byte_of_string s.

Definition seedRecords : list (list byte) :=
  [ bytes "Hamburg;12.0"; bytes "Bulawayo;8.9"; bytes "Palembang;38.8";
    bytes "St. John's;15.2"; bytes "Cracow;12.6" ].

Definition seedFile : list byte := terminated seedRecords.

Definition seedSlicer : Slicer := newSlicer seedFile (buildIndex [seedFile] 2).

(** ** Vocabulary of the statements *)

(** Anchors recorded so far: non-negative, at most the scan position [p],
    and strictly increasing. *)
Definition anchored (l : list Z) (p : Z) : Prop :=
  (forall k a, l !! k = Some a -> 0 <= a <= p)
  /\ (forall k a b, l !! k = Some a -> l !! S k = Some b -> a < b).

(** The value of a column label in the base-26 scheme without a zero
    digit: [A] is the digit 1, ..., [Z] the digit 26, and the label of
    column [n] is the numeral of [n + 1]. *)
Definition letterDigit (c : ascii) : Z := Z.of_N (N_of_ascii c) - 64.

Fixpoint lettersValue (acc : Z) (s : list ascii) : Z :=
  match s with
  | [] => acc
  | c :: s' => lettersValue (acc * 26 + letterDigit c) s'
  end.

Definition lettersToIndex (s : string) : Z :=
  lettersValue 0 (list_ascii_of_string s) - 1.

Definition capital (c : ascii) : Prop := 1 <= letterDigit c <= 26.

(** The same value, read from the least significant letter, as the loop
    of [columnIndexToLetters] produces them. *)
Fixpoint lettersValueRev (ds : list ascii) : Z :=
  match ds with
  | [] => 0
  | c :: ds' => letterDigit c + 26 * lettersValueRev ds'
  end.

(** The world after more lines were written to the console. *)
Definition logged (w : World) (lines : list LogLine) : World :=
  mkWorld (files w) (console w ++ lines).

(** The world an outcome leaves. *)
Definition worldOf {A} (o : Outcome A) : World :=
  match o with
  | Returned _ w => w
  | Thrown _ w => w
  end.

(** The bytes [saveIndex] writes for an index. *)
Definition indexBytes (index : FileIndex) : list byte :=
  setBigUint64 (totalRows index) ++ setBigUint64 (granularity index)
    ++ BigUint64Array_buffer (offsets index).

(** A byte sequence without line terminator. *)
Definition noNewline (l : list byte) : Prop :=
  Forall (fun b => is_newline b = false) l.

(** The records of a file, each ended by a line terminator in the file,
    and the bytes after the last terminator. *)
Fixpoint splitLines (data : list byte) : list (list byte) * list byte :=
  match data with
  | [] => ([], [])
  | b :: rest =>
      let (recs, tail) := splitLines rest in
      if is_newline b then ([] :: recs, tail)
      else match recs with
           | [] => ([], b :: tail)
           | r :: rs => ((b :: r) :: rs, tail)
           end
  end.

Definition records (data : list byte) : list (list byte) :=
  fst (splitLines data).
Definition unterminated (data : list byte) : list byte :=
  snd (splitLines data).

(** The byte offset at which record [j] starts. *)
Definition recordStart (recs : list (list byte)) (j : nat) : Z :=
  Z.of_nat (length (terminated (take j recs))).

(** The state of the scan of [buildIndex] after [j] records, for a
    granularity [G >= 1]. *)
Definition scanned (recs : list (list byte)) (G j : nat) : ScanState :=
  mkScan (map (fun k => recordStart recs (k * G)) (seq 0 (S (j / G))))
         (Z.of_nat j) (Z.of_nat (j mod G)).


Definition blankFile : list byte := [NEWLINE; NEWLINE].

(** ** More of the sources, and of the vocabulary *)

(** [Slicer.getTotalRows]. *)
Definition getTotalRows (s : Slicer) : Z := totalRows (index s).

(** The number of line terminators in a byte sequence. *)
Definition countNewlines (data : list byte) : nat :=
  length (List.filter is_newline data).

(** Every anchor is 0 or the position just after a line terminator of
    [data]. *)
Definition aligned (data : list byte) (offs : list Z) : Prop :=
  forall k a, offs !! k = Some a ->
    a = 0 \/ (1 <= a /\ data !! Z.to_nat (a - 1) = Some NEWLINE).

(** The cells [parseRows] makes of the bytes of one line. *)
Definition projectRecord (decode : list byte -> string)
    (startCol colCount : Z) (line : list byte) : list string :=
  padCells (Array_slice (splitLine (decode line)) startCol
                        (startCol + colCount)) colCount.

Definition nonEmpty (line : list byte) : bool :=
  match line with
  | [] => false
  | _ :: _ => true
  end.

(** ** The reads of getSlice *)

(** How many of the records [rs], laid out one after the other from byte
    0, each followed by its line terminator, have their first byte before
    byte [limit]. *)
Fixpoint linesStarted (rs : list (list byte)) (limit : Z) : nat :=
  match rs with
  | [] => 0
  | r :: rs' =>
      if 0 <? limit
      then S (linesStarted rs' (limit - Z.of_nat (length r) - 1))
      else 0
  end.

(** How many of the lines [ls], laid out one after the other from byte 0,
    each followed by a line terminator, are not empty and have their first
    byte before byte [limit]. *)
Fixpoint rowsStarted (ls : list (list byte)) (limit : Z) : nat :=
  match ls with
  | [] => 0
  | l :: ls' =>
      if 0 <? limit
      then (if nonEmpty l then 1 else 0)
           + rowsStarted ls' (limit - Z.of_nat (length l) - 1)
      else 0
  end.

(** [bytesToRead] and [newBytesToRead] of [getSlice], for [available]
    bytes from the anchor to the end of the file. *)
Definition firstReadLength (rowsToSkip rowCount available : Z) : Z :=
  Z.min (Z.max ((rowsToSkip + rowCount) * 30) READ_BUFFER_SIZE) available.

Definition retryReadLength (bytesToRead rowCount got available : Z) : Z :=
  Z.min (bytesToRead + (rowCount - got) * 50) available.

(** A file of 1000 records of 40 bytes each, and one of 1000 records of
    50 bytes each, terminator included. *)
Definition wideFile : list byte :=
  terminated (replicate (Z.to_nat 1000)
                (bytes "Las Palmas de Gran Canaria, Spain;-12.3")).

Definition widerFile : list byte :=
  terminated (replicate (Z.to_nat 1000)
                (bytes "Santa Cruz de Tenerife, Canary Islands, Spain;-12")).

(** ** grid.ts: computeWindow *)

(** [None] when a divisor is zero, as for [computeSliceParams]. *)
Definition computeWindow (inp : Viewport) : option SliceParams :=
  if (defaultRowHeight inp =? 0) || (defaultColumnWidth inp =? 0) then None
  else
    let startRow := Math_floor_div (scrollTop inp) (defaultRowHeight inp) in
    let visibleRows :=
      Math_ceil_div (screenHeight inp) (defaultRowHeight inp) in
    let startCol :=
      Math_floor_div (scrollLeft inp) (defaultColumnWidth inp) in
    let visibleCols :=
      Math_ceil_div (screenWidth inp) (defaultColumnWidth inp) in
    let rowCount :=
      Z.min (visibleRows + verticalBuffer inp * 2)
            (Z.max 0 (maxRows inp - startRow)) in
    let colCount :=
      Z.min (visibleCols + horizontalBuffer inp * 2)
            (Z.max 0 (maxCols inp - startCol)) in
    Some (mkSliceParams startRow rowCount startCol colCount).

(** ** The server entry point: its message handler *)

(** A decoded client message; [UnknownMessage] is a message whose [type]
    is neither of the two request types. *)
Inductive ClientMessage : Type :=
  | MetadataRequest
  | SliceRequest (screenWidth screenHeight horizontalBuffer verticalBuffer
                  defaultColumnWidth defaultRowHeight scrollLeft scrollTop : Z)
  | UnknownMessage (type : string).

Inductive ServerMessage : Type :=
  | MetadataResponse (maxRows maxCols : Z)
  | SliceResponseMessage (response : SliceResponse)
  | ErrorResponse (message : string).

Section Server.
Variable decode : list byte -> string.

(** The [switch (msg.type)] of the [message] handler; [slicer] is the
    slicer of the server and its index the index of the server.  [None]
    where [computeSliceParams] or [getSlice] leave the integer model. *)
Definition message (slicer : Slicer) (msg : ClientMessage)
    : option ServerMessage :=
  match msg with
  | MetadataRequest =>
      Some (MetadataResponse (totalRows (index slicer)) TOTAL_COLS)
  | SliceRequest screenWidth screenHeight horizontalBuffer verticalBuffer
                 defaultColumnWidth defaultRowHeight scrollLeft scrollTop =>
      sliceParams ←
        computeSliceParams
          (mkViewport screenWidth screenHeight horizontalBuffer
                      verticalBuffer defaultColumnWidth defaultRowHeight
                      scrollLeft scrollTop
                      (totalRows (index slicer)) TOTAL_COLS);
      response ← getSlice decode slicer (startRow sliceParams)
                          (rowCount sliceParams) (startCol sliceParams)
                          (colCount sliceParams);
      Some (SliceResponseMessage response)
  | UnknownMessage type =>
      Some (ErrorResponse ("Unknown message type: " ++ type))
  end.
End Server.

(** ** The page component of the frontend: the selection moved by the
    keyboard *)

Record Selection := mkSelection { selRow : Z; selCol : Z }.

Inductive Direction : Type := DirLeft | DirRight | DirUp | DirDown.

Definition isInSlice (current : option SliceResponse) (r c : Z) : bool :=
  match current with
  | None => false
  | Some current =>
      (resp_startRow current <=? r)
      && (r <? resp_startRow current + resp_rowCount current)
      && (resp_startCol current <=? c)
      && (c <? resp_startCol current + resp_colCount current)
  end.

(** [current.cellsByRow[rr]?.[cc]] is neither [undefined] nor empty. *)
Definition isFilled (current : option SliceResponse) (r c : Z) : bool :=
  match current with
  | None => false
  | Some cur =>
      if negb (isInSlice current r c) then false
      else
        let rr := r - resp_startRow cur in
        let cc := c - resp_startCol cur in
        match resp_cellsByRow cur !! Z.to_nat rr
                ≫= (fun cells => cells !! Z.to_nat cc) with
        | Some v => negb (String.eqb v "")
        | None => false
        end
  end.

(** [while (k - 1 >= 0 && filled(k - 1)) k--]; the loop runs at most [k]
    times, which is the fuel given where it is used. *)
Fixpoint jumpBack (fuel : nat) (filled : Z -> bool) (k : Z) : Z :=
  match fuel with
  | O => k
  | S fuel' =>
      if (0 <=? k - 1) && filled (k - 1) then jumpBack fuel' filled (k - 1)
      else k
  end.

(** [while (k + 1 < count && filled(k + 1)) k++]; at most [count - k]
    times. *)
Fixpoint jumpForward (fuel : nat) (filled : Z -> bool) (count k : Z) : Z :=
  match fuel with
  | O => k
  | S fuel' =>
      if (k + 1 <? count) && filled (k + 1)
      then jumpForward fuel' filled count (k + 1)
      else k
  end.

(** [jumpEdge(dir)]; [maxRows] and [maxCols] are the state of the page. *)
Definition jumpEdge (current : option SliceResponse) (maxRows maxCols : Z)
    (dir : Direction) (sel : Selection) : Selection :=
  let row := selRow sel in
  let col := selCol sel in
  match current with
  | None =>
      match dir with
      | DirLeft => mkSelection row 0
      | DirRight => mkSelection row (maxCols - 1)
      | DirUp => mkSelection 0 col
      | DirDown => mkSelection (maxRows - 1) col
      end
  | Some cur =>
      if negb (isInSlice current row col) then
        match dir with
        | DirLeft => mkSelection row (resp_startCol cur)
        | DirRight =>
            mkSelection row (resp_startCol cur + resp_colCount cur - 1)
        | DirUp => mkSelection (resp_startRow cur) col
        | DirDown =>
            mkSelection (resp_startRow cur + resp_rowCount cur - 1) col
        end
      else
        let localRow := row - resp_startRow cur in
        let localCol := col - resp_startCol cur in
        match dir with
        | DirLeft =>
            let cc := jumpBack (Z.to_nat localCol)
                        (fun k => isFilled current row (resp_startCol cur + k))
                        localCol in
            mkSelection row (resp_startCol cur + cc)
        | DirRight =>
            let cc := jumpForward (Z.to_nat (resp_colCount cur - localCol))
                        (fun k => isFilled current row (resp_startCol cur + k))
                        (resp_colCount cur) localCol in
            mkSelection row (resp_startCol cur + cc)
        | DirUp =>
            let rr := jumpBack (Z.to_nat localRow)
                        (fun k => isFilled current (resp_startRow cur + k) col)
                        localRow in
            mkSelection (resp_startRow cur + rr) col
        | DirDown =>
            let rr := jumpForward (Z.to_nat (resp_rowCount cur - localRow))
                        (fun k => isFilled current (resp_startRow cur + k) col)
                        (resp_rowCount cur) localRow in
            mkSelection (resp_startRow cur + rr) col
        end
  end.

(** The selection [onKeyDown] stores for a key: [None] when the handler
    returns early and lets the key pass.  [maxRowsRef] and [maxColsRef]
    are the values of the two refs; the scrolling and the redraw that
    follow a stored selection are not part of the model. *)
Definition onKeyDown (key : string) (meta : bool)
    (current : option SliceResponse)
    (maxRows maxCols maxRowsRef maxColsRef : Z) (sel : Selection)
    : option Selection :=
  let row := selRow sel in
  let col := selCol sel in
  let totalRows := Z.max 1 maxRowsRef in
  let totalCols := Z.max 1 maxColsRef in
  if String.eqb key "ArrowUp" then Some (mkSelection (Z.max 0 (row - 1)) col)
  else if String.eqb key "ArrowDown" then
    Some (mkSelection (Z.min (totalRows - 1) (row + 1)) col)
  else if String.eqb key "ArrowLeft" then
    Some (mkSelection row (Z.max 0 (col - 1)))
  else if String.eqb key "ArrowRight" then
    Some (mkSelection row (Z.min (totalCols - 1) (col + 1)))
  else if String.eqb key "Home" then Some (mkSelection row 0)
  else if String.eqb key "End" then Some (mkSelection row (totalCols - 1))
  else if meta && String.eqb key "ArrowLeft" then
    Some (jumpEdge current maxRows maxCols DirLeft sel)
  else if meta && String.eqb key "ArrowRight" then
    Some (jumpEdge current maxRows maxCols DirRight sel)
  else if meta && String.eqb key "ArrowUp" then
    Some (jumpEdge current maxRows maxCols DirUp sel)
  else if meta && String.eqb key "ArrowDown" then
    Some (jumpEdge current maxRows maxCols DirDown sel)
  else None.

(** * Properties *)

(** ** The byte scan of buildIndex *)

Lemma scanChunk_shift G c chunk i st :
  scanChunk G c chunk i st = scanChunk G 0 chunk (c + i) st.
Proof.
  revert i st. induction chunk as [|b rest IH]; intros i st; simpl; [done|].
  rewrite IH. unfold scanByte.
  replace (0 + (c + i) + 1) with (c + i + 1) by lia.
  by replace (c + (i + 1)) with (c + i + 1) by lia.
Qed.

Lemma scanChunk_app G c l1 l2 i st :
  scanChunk G c (l1 ++ l2) i st
  = scanChunk G c l2 (i + Z.of_nat (length l1)) (scanChunk G c l1 i st).
Proof.
  revert i st. induction l1 as [|b l1 IH]; intros i st; simpl.
  - by rewrite Z.add_0_r.
  - rewrite IH. f_equal. lia.
Qed.

(** Chunk boundaries do not matter: the stream is scanned as the flat
    byte sequence it carries. *)
Lemma scanStream_flat G chunks c st :
  scanStream G chunks c st = scanChunk G 0 (concat chunks) c st.
Proof.
  revert c st. induction chunks as [|chunk more IH]; intros c st; simpl.
  - done.
  - rewrite IH, scanChunk_app. f_equal.
    rewrite (scanChunk_shift G c). f_equal. lia.
Qed.

Lemma buildIndex_chunks chunks G :
  buildIndex chunks G = buildIndex [concat chunks] G.
Proof.
  unfold buildIndex. rewrite !scanStream_flat. simpl. by rewrite app_nil_r.
Qed.

Lemma anchored_weaken l p q : anchored l p -> p <= q -> anchored l q.
Proof.
  intros [Hb Hi] Hpq. split; [|done].
  intros k a Hk. specialize (Hb k a Hk). lia.
Qed.

Lemma anchored_snoc l p x :
  anchored l p -> p < x -> 0 <= x -> anchored (l ++ [x]) x.
Proof.
  intros [Hb Hi] Hpx Hx. split.
  - intros k a [Hk|[_ Hk]]%lookup_app_Some.
    + specialize (Hb k a Hk). lia.
    + apply list_lookup_singleton_Some in Hk as [_ <-]. lia.
  - intros k a b [Ha|[Hlen Ha]]%lookup_app_Some
                 [Hb'|[Hlen' Hb']]%lookup_app_Some.
    + eauto.
    + apply list_lookup_singleton_Some in Hb' as [_ <-].
      specialize (Hb k a Ha). lia.
    + apply lookup_lt_Some in Hb'. lia.
    + apply list_lookup_singleton_Some in Ha as [Ha _].
      apply list_lookup_singleton_Some in Hb' as [Hb' _]. lia.
Qed.

Lemma scanByte_anchored G pos b st :
  0 <= pos -> anchored (scan_offsets st) pos ->
  anchored (scan_offsets (scanByte G 0 pos b st)) (pos + 1).
Proof.
  intros Hpos Hst. unfold scanByte.
  destruct (is_newline b); [|eapply anchored_weaken; [done|lia]].
  destruct (G <=? _); simpl; [|eapply anchored_weaken; [done|lia]].
  replace (0 + pos + 1) with (pos + 1) by lia.
  apply (anchored_snoc _ pos); [done|lia|lia].
Qed.

Lemma scanChunk_anchored G data pos st :
  0 <= pos -> anchored (scan_offsets st) pos ->
  anchored (scan_offsets (scanChunk G 0 data pos st))
           (pos + Z.of_nat (length data)).
Proof.
  revert pos st. induction data as [|b rest IH]; intros pos st Hpos Hst; simpl.
  - by rewrite Z.add_0_r.
  - replace (pos + Z.of_nat (S (length rest)))
      with ((pos + 1) + Z.of_nat (length rest)) by lia.
    apply IH; [lia|]. by apply scanByte_anchored.
Qed.

Lemma anchored_init : anchored [0] 0.
Proof.
  split.
  - intros k a [_ <-]%list_lookup_singleton_Some. lia.
  - intros k a b _ Hb. by destruct k.
Qed.

Lemma BigUint64Array_from_id l p :
  anchored l p -> p < 2 ^ 64 -> BigUint64Array_from l = l.
Proof.
  intros [Hb _] Hp. unfold BigUint64Array_from.
  apply list_eq. intros k. rewrite list_lookup_fmap.
  destruct (l !! k) as [a|] eqn:Hk; simpl; [|done].
  specialize (Hb k a Hk). f_equal. apply Z.mod_small. lia.
Qed.

Lemma buildIndex_anchored chunks G :
  anchored (scan_offsets (scanStream G chunks 0 (mkScan [0] 0 0)))
           (Z.of_nat (length (concat chunks))).
Proof.
  rewrite scanStream_flat.
  apply (scanChunk_anchored G (concat chunks) 0); [lia|apply anchored_init].
Qed.

Lemma buildIndex_offsets chunks G :
  Z.of_nat (length (concat chunks)) < 2 ^ 64 ->
  offsets (buildIndex chunks G)
  = scan_offsets (scanStream G chunks 0 (mkScan [0] 0 0)).
Proof.
  intros Hsize. unfold buildIndex; simpl.
  eapply BigUint64Array_from_id; [apply buildIndex_anchored|done].
Qed.

(** ** C3: the anchors are strictly increasing and bounded by the file size *)

(** C3, as stated, fails: on the one-record file [a;1] (terminated), with
    granularity 1, the anchor pushed after the last line terminator equals
    the file size, so [offsets[0] < offsets[1] < fileSize] is false. *)
Lemma buildIndex_last_anchor_is_fileSize :
  let data := bytes "a;1" ++ [NEWLINE] in
  let idx := buildIndex [data] 1 in
  ~ (forall k a b, offsets idx !! k = Some a -> offsets idx !! S k = Some b ->
                   a < b < Z.of_nat (length data)).
Proof.
  intros data idx Hclaim.
  specialize (Hclaim 0%nat 0 4 eq_refl eq_refl). simpl in Hclaim. lia.
Qed.

(** C3, amended: for every input file (of a size below [2^64]), however it
    is cut into chunks and whatever the granularity, any two neighbouring
    entries of the built index satisfy
    [0 <= offsets[k] < offsets[k+1] <= fileSize]: the array is strictly
    increasing and bounded by the file size, which only its last entry can
    reach. *)
Theorem buildIndex_offsets_increasing chunks G k a b :
  Z.of_nat (length (concat chunks)) < 2 ^ 64 ->
  offsets (buildIndex chunks G) !! k = Some a ->
  offsets (buildIndex chunks G) !! S k = Some b ->
  0 <= a < b /\ b <= Z.of_nat (length (concat chunks)).
Proof.
  intros Hsize. rewrite buildIndex_offsets by done.
  destruct (buildIndex_anchored chunks G) as [Hbound Hincr].
  intros Ha Hb. specialize (Hincr k a b Ha Hb).
  specialize (Hbound _ _ Ha) as Ha'. specialize (Hbound _ _ Hb) as Hb'. lia.
Qed.

Lemma buildIndex_offsets_increasing_witness :
  0 <= 26 < 57 /\ 57 <= Z.of_nat (length (concat [seedFile])).
Proof.
  apply (buildIndex_offsets_increasing [seedFile] 2 1%nat 26 57).
  - vm_compute. reflexivity.
  - reflexivity.
  - reflexivity.
Defined.

(** ** C4: the index of the seed file *)

(** C4, as stated, fails: the fifth record of the seed file starts at byte
    57 (13 + 13 + 15 + 16), not at byte 60. *)
Lemma buildIndex_seed_not_60 :
  ~ (totalRows (buildIndex [seedFile] 2) = 5
     /\ offsets (buildIndex [seedFile] 2) = [0; 26; 60]).
Proof. intros [_ Hoffs]. vm_compute in Hoffs. discriminate Hoffs. Qed.

(** C4, amended: on the seed file (69 bytes), however it is cut into
    chunks, [buildIndex] with granularity 2 yields [totalRows = 5] and
    [offsets = [0, 26, 57]]. *)
Theorem buildIndex_seed chunks :
  concat chunks = seedFile ->
  length seedFile = 69%nat
  /\ buildIndex chunks 2 = mkFileIndex 5 [0; 26; 57] 2.
Proof.
  intros Hchunks. split; [reflexivity|].
  rewrite buildIndex_chunks, Hchunks. reflexivity.
Qed.

Lemma buildIndex_seed_witness :
  length seedFile = 69%nat
  /\ buildIndex [take 30 seedFile; drop 30 seedFile] 2
     = mkFileIndex 5 [0; 26; 57] 2.
Proof. apply (buildIndex_seed [take 30 seedFile; drop 30 seedFile]). reflexivity. Defined.

(** ** C1: a slice that starts past the end of the seed file *)

(** C1, as stated, fails: [startRow = 10] is clamped to the last row, 4,
    and [rowCount] to 1, so the response carries one row, not none. *)
Lemma getSlice_seed_past_end_not_empty :
  ~ (exists r, getSlice decodeAscii seedSlicer 10 5 0 2 = Some r
               /\ resp_rowCount r = 0 /\ resp_cellsByRow r = []).
Proof. intros (r & Hr & Hcount & _). vm_compute in Hr. by simplify_eq. Qed.

(** C1, amended: on the seed file, [getSlice(10, 5, 0, 2)] clamps
    [startRow] to the last row and returns that row:
    [startRow = 4], [rowCount = 1], cells [[Cracow, 12.6]], for every
    decoder that reads the ASCII bytes of the record as its text. *)
Theorem getSlice_seed_past_end decode :
  decode (bytes "Cracow;12.6") = "Cracow;12.6"%string ->
  getSlice decode seedSlicer 10 5 0 2
  = Some (mkSliceResponse 4 1 0 2 ["A"; "B"]%string
                          [["Cracow"; "12.6"]%string]).
Proof.
  intros Hdecode. unfold getSlice, parseRows. simpl.
  change (bytes "Cracow;12.6") with
    [Byte.x43; Byte.x72; Byte.x61; Byte.x63; Byte.x6f; Byte.x77; Byte.x3b;
     Byte.x31; Byte.x32; Byte.x2e; Byte.x36] in Hdecode.
  rewrite Hdecode. reflexivity.
Qed.

Lemma getSlice_seed_past_end_witness :
  getSlice decodeAscii seedSlicer 10 5 0 2
  = Some (mkSliceResponse 4 1 0 2 ["A"; "B"]%string
                          [["Cracow"; "12.6"]%string]).
Proof. apply (getSlice_seed_past_end decodeAscii). reflexivity. Defined.

(** ** C5: the start row of the viewport *)

(** C5, as stated, fails: with [scrollTop = 240], [defaultRowHeight = 24]
    and [maxRows = 5] the start row is 10, which is not below [maxRows]. *)
Lemma computeSliceParams_startRow_past_maxRows :
  let params := mkViewport 1000 480 2 5 100 24 0 240 5 2 in
  0 < maxRows params
  /\ exists r, computeSliceParams params = Some r
               /\ startRow r = 10 /\ ~ startRow r < maxRows params.
Proof.
  intros params. split; [done|]. exists (mkSliceParams 10 0 0 2).
  split; [reflexivity|]. split; [reflexivity|]. change (~ 10 < 5). lia.
Qed.

(** C5, amended: [computeSliceParams] clamps the start row from below
    only.  For a positive row height, the returned
    [startRow] is [max 0 (floor (scrollTop / defaultRowHeight))]; it is
    never negative, and it is below [maxRows] exactly when [maxRows] is
    positive and [scrollTop < maxRows * defaultRowHeight]. *)
Theorem computeSliceParams_startRow params :
  0 < defaultRowHeight params ->
  defaultColumnWidth params <> 0 ->
  exists r, computeSliceParams params = Some r
    /\ startRow r
       = Z.max 0 (Math_floor_div (scrollTop params) (defaultRowHeight params))
    /\ 0 <= startRow r
    /\ (startRow r < maxRows params
        <-> 0 < maxRows params
            /\ scrollTop params < maxRows params * defaultRowHeight params).
Proof.
  intros Hh Hw. unfold computeSliceParams.
  destruct (Z.eqb_spec (defaultRowHeight params) 0) as [?|_]; [lia|].
  destruct (Z.eqb_spec (defaultColumnWidth params) 0) as [?|_]; [done|].
  simpl. eexists. split; [reflexivity|]. simpl. unfold Math_floor_div.
  split; [done|]. split; [apply Z.le_max_l|].
  pose proof (Z.div_mod (scrollTop params) (defaultRowHeight params)
                        ltac:(lia)) as Hdm.
  pose proof (Z.mod_pos_bound (scrollTop params) (defaultRowHeight params) Hh).
  split.
  - intros Hlt. split; [lia|]. nia.
  - intros [HM Hlt]. apply Z.max_lub_lt; [done|].
    apply Z.div_lt_upper_bound; [done|lia].
Qed.

Lemma computeSliceParams_startRow_witness :
  exists r,
    computeSliceParams (mkViewport 1000 480 2 5 100 24 0 48 5 2) = Some r
    /\ startRow r = Z.max 0 (Math_floor_div 48 24)
    /\ 0 <= startRow r
    /\ (startRow r < 5 <-> 0 < 5 /\ 48 < 5 * 24).
Proof.
  apply (computeSliceParams_startRow (mkViewport 1000 480 2 5 100 24 0 48 5 2)).
  - simpl. lia.
  - simpl. lia.
Defined.

(** ** C9: column letters *)

Lemma letterDigit_fromCharCode r :
  0 <= r < 26 -> letterDigit (fromCharCode (65 + r)) = r + 1.
Proof.
  intros Hr. unfold letterDigit, fromCharCode.
  rewrite N_ascii_embedding by lia. lia.
Qed.

Lemma lettersValue_app acc l1 l2 :
  lettersValue acc (l1 ++ l2) = lettersValue (lettersValue acc l1) l2.
Proof. revert acc. induction l1 as [|c l1 IH]; intros acc; simpl; auto. Qed.

Lemma lettersValue_shift acc l :
  lettersValue acc l
  = acc * 26 ^ Z.of_nat (length l) + lettersValue 0 l.
Proof.
  revert acc. induction l as [|c l IH]; intros acc.
  - simpl. lia.
  - cbn [lettersValue length]. rewrite IH, (IH (0 * 26 + letterDigit c)).
    rewrite Nat2Z.inj_succ, Z.pow_succ_r by lia. lia.
Qed.

Lemma lettersValue_rev ds :
  lettersValue 0 (rev ds) = lettersValueRev ds.
Proof.
  induction ds as [|c ds IH]; [done|].
  cbn [rev lettersValueRev]. rewrite lettersValue_app, IH. simpl. lia.
Qed.

(** The loop terminates within its fuel and emits, least significant
    letter first, the numeral of [n + 1]. *)
Lemma lettersLoop_spec fuel n chars :
  0 <= n < 26 ^ Z.of_nat (S fuel) ->
  exists ds, lettersLoop (S fuel) n chars = Some (chars ++ ds)
             /\ Forall capital ds /\ lettersValueRev ds = n + 1.
Proof.
  revert n chars. induction fuel as [|fuel IH]; intros n chars Hn.
  - exists [fromCharCode (65 + n mod 26)]. change (26 ^ Z.of_nat 1) with 26 in Hn.
    cbn [lettersLoop]. unfold Math_floor_div.
    rewrite Z.div_small, Z.mod_small by lia. simpl (0 =? 0).
    cbv iota. split; [done|]. split.
    + constructor; [|constructor]. unfold capital.
      rewrite letterDigit_fromCharCode; lia.
    + cbn [lettersValueRev]. rewrite letterDigit_fromCharCode; lia.
  - pose proof (Z.mod_pos_bound n 26 ltac:(lia)) as Hrem.
    pose proof (Z.div_mod n 26 ltac:(lia)) as Hdm.
    rewrite Nat2Z.inj_succ, Z.pow_succ_r in Hn by lia.
    assert (0 <= n / 26 < 26 ^ Z.of_nat (S fuel)) as Hq.
    { split; [apply Z.div_pos; lia|apply Z.div_lt_upper_bound; lia]. }
    remember (S fuel) as fuel1 eqn:Hfuel1.
    cbn [lettersLoop]. unfold Math_floor_div. fold (Math_floor_div (n / 26) 26).
    destruct (Z.eqb_spec (n / 26) 0) as [Hz|Hnz].
    + exists [fromCharCode (65 + n mod 26)]. split; [done|]. split.
      * constructor; [|constructor]. unfold capital.
        rewrite letterDigit_fromCharCode; lia.
      * cbn [lettersValueRev]. rewrite letterDigit_fromCharCode; lia.
    + destruct (IH (n / 26 - 1) (chars ++ [fromCharCode (65 + n mod 26)]))
        as (ds & Hloop & Hcap & Hval); [lia|].
      exists (fromCharCode (65 + n mod 26) :: ds). split; [|split].
      * rewrite Hloop. by rewrite <- app_assoc.
      * constructor; [|done]. unfold capital.
        rewrite letterDigit_fromCharCode; lia.
      * cbn [lettersValueRev]. rewrite letterDigit_fromCharCode, Hval; lia.
Qed.




(** ** The little-endian codec *)

Lemma byte_to_Z_of_Z z : byte_to_Z (byte_of_Z z) = z mod 256.
Proof.
  unfold byte_to_Z, byte_of_Z.
  pose proof (Z.mod_pos_bound z 256 ltac:(lia)) as Hr.
  destruct (Byte.of_N (Z.to_N (z mod 256))) as [b|] eqn:Hb; simpl.
  - apply Byte.to_of_N in Hb. rewrite Hb. lia.
  - apply Byte.of_N_None_iff in Hb. lia.
Qed.

Lemma length_le_bytes n v : length (le_bytes n v) = n.
Proof. revert v. induction n as [|n IH]; intros v; simpl; auto. Qed.

Lemma le_value_le_bytes n v :
  le_value (le_bytes n v) = v mod 256 ^ Z.of_nat n.
Proof.
  revert v. induction n as [|n IH]; intros v.
  - simpl. by rewrite Z.mod_1_r.
  - cbn [le_bytes le_value]. rewrite byte_to_Z_of_Z, IH.
    rewrite Nat2Z.inj_succ, Z.pow_succ_r by lia.
    rewrite Z.rem_mul_r by lia. lia.
Qed.

Lemma le_value_setBigUint64 v :
  0 <= v < 2 ^ 64 -> le_value (setBigUint64 v) = v.
Proof.
  intros Hv. unfold setBigUint64. rewrite le_value_le_bytes.
  change (256 ^ Z.of_nat 8) with (2 ^ 64). by rewrite !(Z.mod_small v) by done.
Qed.

Lemma length_BigUint64Array_buffer a :
  length (BigUint64Array_buffer a) = (8 * length a)%nat.
Proof.
  unfold BigUint64Array_buffer. induction a as [|o a IH]; [done|].
  cbn [flat_map]. rewrite length_app, length_le_bytes, IH. simpl. lia.
Qed.

Lemma u64_elements_buffer a :
  Forall (fun o => 0 <= o < 2 ^ 64) a ->
  u64_elements (length a) (BigUint64Array_buffer a) = a.
Proof.
  induction 1 as [|o a Ho _ IH]; [done|].
  cbn [length u64_elements BigUint64Array_buffer flat_map].
  rewrite take_app_length', drop_app_length' by (by rewrite length_le_bytes).
  fold (BigUint64Array_buffer a). rewrite IH, le_value_le_bytes.
  change (256 ^ Z.of_nat 8) with (2 ^ 64). by rewrite Z.mod_small by done.
Qed.

(** [Math.floor] and [Math.ceil] of a quotient are what their names say. *)
Lemma Math_floor_div_spec a b :
  0 < b -> b * Math_floor_div a b <= a < b * (Math_floor_div a b + 1).
Proof.
  intros Hb. unfold Math_floor_div.
  pose proof (Z.div_mod a b ltac:(lia)). pose proof (Z.mod_pos_bound a b Hb).
  lia.
Qed.

Lemma Math_ceil_div_spec a b :
  0 < b -> b * (Math_ceil_div a b - 1) < a <= b * Math_ceil_div a b.
Proof.
  intros Hb. unfold Math_ceil_div.
  pose proof (Z.div_mod (- a) b ltac:(lia)).
  pose proof (Z.mod_pos_bound (- a) b Hb). lia.
Qed.

(** ** What saveIndex and loadIndex do to the world *)

Lemma saveIndex_outcome idx path w :
  saveIndex idx path w
  = Returned tt (mkWorld (<[path := indexBytes idx]> (files w))
                         (console w ++ [LogSaving; LogSaved])).
Proof.
  unfold saveIndex, mbind, IO_bind, log, Bun_write, indexBytes.
  cbn [files console]. by rewrite <- app_assoc.
Qed.

Lemma loadIndex_absent path w :
  files w !! path = None ->
  loadIndex path w = Returned None (logged w [LogNoCache]).
Proof.
  intros Hp. unfold loadIndex, mbind, IO_bind, Bun_exists.
  rewrite Hp. rewrite bool_decide_eq_false_2 by (by intros [? ?]).
  reflexivity.
Qed.

Lemma loadIndex_present path w buffer :
  files w !! path = Some buffer ->
  loadIndex path w
  = if (length buffer <? 16)%nat then Thrown RangeError (logged w [LogLoading])
    else if (length (drop 16 buffer) mod 8 =? 0)%nat then
      Returned
        (Some (mkFileIndex
                 (le_value (take 8 buffer))
                 (u64_elements (length (drop 16 buffer) / 8) (drop 16 buffer))
                 (le_value (take 8 (drop 8 buffer)))))
        (logged w [LogLoading; LogLoaded])
    else Thrown RangeError (logged w [LogLoading]).
Proof.
  intros Hp. unfold loadIndex, mbind, IO_bind, Bun_exists, Bun_arrayBuffer, log.
  rewrite Hp. rewrite bool_decide_eq_true_2 by eauto.
  cbn [negb files console]. rewrite Hp.
  unfold getBigUint64, BigUint64Array_of_buffer, throw, mret, IO_ret.
  destruct (Nat.ltb_spec (length buffer) 16) as [Hshort|Hlong].
  - destruct (Nat.ltb_spec (length buffer) (0 + 8)) as [?|?]; [done|].
    destruct (Nat.ltb_spec (length buffer) (8 + 8)) as [?|?]; [done|lia].
  - destruct (Nat.ltb_spec (length buffer) (0 + 8)) as [?|_]; [lia|].
    destruct (Nat.ltb_spec (length buffer) (8 + 8)) as [?|_]; [lia|].
    destruct (length (drop 16 buffer) mod 8 =? 0)%nat; [|done].
    unfold logged. cbn [files console]. by rewrite <- app_assoc.
Qed.

(** ** C6: saving and loading an index *)

(** C6: for every index value (a row count and a granularity that are
    non-negative and fit 64 bits, and 64-bit offsets), [saveIndex]
    followed by [loadIndex] of the same path returns an index with the
    same [totalRows], [granularity] and [offsets]. *)
Theorem saveIndex_loadIndex idx path w :
  0 <= totalRows idx < 2 ^ 64 ->
  0 <= granularity idx < 2 ^ 64 ->
  Forall (fun o => 0 <= o < 2 ^ 64) (offsets idx) ->
  exists w1 w2,
    saveIndex idx path w = Returned tt w1
    /\ loadIndex path w1 = Returned (Some idx) w2.
Proof.
  intros Hrows Hgran Hoffs. destruct idx as [rows offs gran].
  cbn [totalRows granularity offsets] in *. rewrite saveIndex_outcome.
  eexists. eexists. split; [reflexivity|].
  erewrite loadIndex_present; [|cbn [files]; apply lookup_insert_eq].
  unfold indexBytes. cbn [totalRows granularity offsets].
  set (buffer := setBigUint64 rows ++ setBigUint64 gran
                   ++ BigUint64Array_buffer offs).
  assert (length (setBigUint64 rows) = 8%nat) as Hl1 by apply length_le_bytes.
  assert (length (setBigUint64 gran) = 8%nat) as Hl2 by apply length_le_bytes.
  assert (drop 16 buffer = BigUint64Array_buffer offs) as Hdrop.
  { unfold buffer. rewrite app_assoc. apply drop_app_length'.
    rewrite length_app. lia. }
  assert (take 8 buffer = setBigUint64 rows) as Htake1.
  { unfold buffer. by apply take_app_length'. }
  assert (take 8 (drop 8 buffer) = setBigUint64 gran) as Htake2.
  { unfold buffer. rewrite drop_app_length' by done.
    by apply take_app_length'. }
  assert (length buffer = (16 + 8 * length offs)%nat) as Hlen.
  { unfold buffer. rewrite !length_app, Hl1, Hl2, length_BigUint64Array_buffer.
    lia. }
  rewrite Htake1, Htake2, Hdrop, !le_value_setBigUint64 by done.
  rewrite Hlen, length_BigUint64Array_buffer.
  destruct (Nat.ltb_spec (16 + 8 * length offs) 16) as [?|_]; [lia|].
  replace (8 * length offs)%nat with (length offs * 8)%nat by lia.
  rewrite Nat.Div0.mod_mul, Nat.div_mul by lia. cbn [Nat.eqb].
  rewrite u64_elements_buffer by done. reflexivity.
Qed.

Lemma saveIndex_loadIndex_witness :
  exists w1 w2,
    saveIndex (mkFileIndex 5 [0; 26; 57] 2) "measurements.idx"
              (mkWorld ∅ []) = Returned tt w1
    /\ loadIndex "measurements.idx" w1
       = Returned (Some (mkFileIndex 5 [0; 26; 57] 2)) w2.
Proof.
  apply (saveIndex_loadIndex (mkFileIndex 5 [0; 26; 57] 2)).
  - simpl. lia.
  - simpl. lia.
  - simpl. repeat (constructor; [lia|]). constructor.
Defined.

(** ** C8: absent and malformed index files *)

(** C8: [loadIndex] returns [null] exactly when the index file is absent.
    When the file is present, a header shorter than 16 bytes or a
    remainder after the header whose length is not a multiple of 8 makes
    it throw a [RangeError]; any other file yields an index. *)
Theorem loadIndex_absent_or_malformed path w :
  match files w !! path with
  | None => exists w', loadIndex path w = Returned None w'
  | Some buffer =>
      (forall w', loadIndex path w <> Returned None w')
      /\ if (length buffer <? 16)%nat
            || negb ((length buffer - 16) mod 8 =? 0)%nat
         then exists w', loadIndex path w = Thrown RangeError w'
         else exists idx w', loadIndex path w = Returned (Some idx) w'
  end.
Proof.
  destruct (files w !! path) as [buffer|] eqn:Hp.
  - rewrite (loadIndex_present _ _ _ Hp), length_drop.
    destruct (length buffer <? 16)%nat; cbn [orb].
    + split; [done|]. by eexists.
    + destruct ((length buffer - 16) mod 8 =? 0)%nat; cbn [negb].
      * split; [done|]. by do 2 eexists.
      * split; [done|]. by eexists.
  - rewrite (loadIndex_absent _ _ Hp). by eexists.
Qed.

(** ** C7: the freshness check of the cached index *)

Section Cache.
Variable stream : list byte -> list (list byte).

Lemma rebuild_console config w :
  exists more,
    console (worldOf (rebuild stream config w))
    = console w ++ LogBuilding :: more.
Proof.
  unfold rebuild, buildIndexIO, mbind, IO_bind, log, Bun_arrayBuffer,
    mret, IO_ret.
  cbn [files console].
  destruct (files w !! filePath config) as [data|]; cbn [worldOf console].
  - destruct (truthy (indexPath config)) as [path|].
    + rewrite saveIndex_outcome. cbn [worldOf console].
      eexists. rewrite <- !app_assoc. reflexivity.
    + cbn [worldOf console]. eexists. rewrite <- !app_assoc. reflexivity.
  - by eexists.
Qed.

(** C7: when the cached index loads, [getOrBuildIndex] returns it, and
    leaves the world as the load left it, exactly when
    [floor (S / 50) <= totalRows <= ceil (S / 5)] for the size [S] of the
    data file; otherwise it reports the cache as stale and goes on as
    [rebuild] does, which starts the builder. *)
Theorem getOrBuildIndex_freshness config path cached w w1 :
  truthy (indexPath config) = Some path ->
  loadIndex path w = Returned (Some cached) w1 ->
  let size :=
    from_option (fun d => Z.of_nat (length d)) 0
                (files w1 !! filePath config) in
  let accepted :=
    Math_floor_div size 50 <= totalRows cached <= Math_ceil_div size 5 in
  (getOrBuildIndex stream config w = Returned cached w1 <-> accepted)
  /\ (~ accepted ->
      getOrBuildIndex stream config w
      = rebuild stream config (logged w1 [LogStale])
      /\ exists more,
           console (worldOf (getOrBuildIndex stream config w))
           = console w1 ++ LogStale :: LogBuilding :: more).
Proof.
  intros Hpath Hload size accepted.
  assert (getOrBuildIndex stream config w
          = if (Math_floor_div size 50 <=? totalRows cached)
               && (totalRows cached <=? Math_ceil_div size 5)
            then Returned cached w1
            else rebuild stream config (logged w1 [LogStale])) as Hrun.
  { unfold getOrBuildIndex. rewrite Hpath.
    unfold mbind at 1, IO_bind at 1. rewrite Hload.
    unfold mbind at 1, IO_bind at 1, Bun_size. fold size.
    by destruct (_ && _). }
  assert (~ accepted ->
          getOrBuildIndex stream config w
          = rebuild stream config (logged w1 [LogStale])
          /\ exists more,
               console (worldOf (getOrBuildIndex stream config w))
               = console w1 ++ LogStale :: LogBuilding :: more) as Hstale.
  { intros Hno. rewrite Hrun.
    destruct (Z.leb_spec (Math_floor_div size 50) (totalRows cached));
      destruct (Z.leb_spec (totalRows cached) (Math_ceil_div size 5));
      cbn [andb]; try (exfalso; apply Hno; unfold accepted; lia).
    all: split; [done|].
    all: destruct (rebuild_console config (logged w1 [LogStale])) as [more ->].
    all: exists more; cbn [logged console]; by rewrite <- app_assoc. }
  split; [|done]. split.
  - intros Hsame. destruct (decide accepted) as [|Hno]; [done|].
    destruct (Hstale Hno) as (_ & more & Hcons).
    rewrite Hsame in Hcons. cbn [worldOf] in Hcons.
    apply (f_equal length) in Hcons. rewrite length_app in Hcons.
    cbn [length] in Hcons. lia.
  - intros [Hmin Hmax]. rewrite Hrun.
    destruct (Z.leb_spec (Math_floor_div size 50) (totalRows cached));
      [|lia].
    destruct (Z.leb_spec (totalRows cached) (Math_ceil_div size 5)); [|lia].
    done.
Qed.
End Cache.

Lemma getOrBuildIndex_freshness_witness :
  let config := mkConfig "measurements.txt" 4001 2 (Some "measurements.idx") in
  let cached := mkFileIndex 5 [0; 26; 57] 2 in
  let w := mkWorld (<["measurements.idx" := indexBytes cached]>
                      (<["measurements.txt" := seedFile]> ∅)) [] in
  let w1 := logged w [LogLoading; LogLoaded] in
  (getOrBuildIndex (fun d => [d]) config w = Returned cached w1
   <-> Math_floor_div 69 50 <= 5 <= Math_ceil_div 69 5)
  /\ (~ Math_floor_div 69 50 <= 5 <= Math_ceil_div 69 5 ->
      getOrBuildIndex (fun d => [d]) config w
      = rebuild (fun d => [d]) config (logged w1 [LogStale])
      /\ exists more,
           console (worldOf (getOrBuildIndex (fun d => [d]) config w))
           = console w1 ++ LogStale :: LogBuilding :: more).
Proof.
  intros config cached w w1.
  apply (getOrBuildIndex_freshness (fun d => [d]) config "measurements.idx"
                                   cached w w1).
  - reflexivity.
  - vm_compute. reflexivity.
Defined.

(** ** The records of a file and the anchors of its index *)

Lemma terminated_app l1 l2 :
  terminated (l1 ++ l2) = terminated l1 ++ terminated l2.
Proof. unfold terminated. apply flat_map_app. Qed.

Lemma splitLines_spec data :
  data = terminated (records data) ++ unterminated data
  /\ Forall noNewline (records data) /\ noNewline (unterminated data).
Proof.
  unfold records, unterminated.
  induction data as [|b rest (Heq & Hrecs & Htail)]; [by repeat constructor|].
  cbn [splitLines]. destruct (splitLines rest) as [recs tail]. simpl in *.
  destruct (is_newline b) eqn:Hb.
  - apply Byte.byte_dec_bl in Hb as ->. simpl. split; [by f_equal|].
    split; [|done]. constructor; [constructor|done].
  - destruct recs as [|r rs]; simpl in *.
    + split; [by f_equal|]. split; [done|]. by constructor.
    + split; [by f_equal|]. inversion Hrecs; subst.
      split; [|done]. constructor; [by constructor|done].
Qed.

Lemma scanChunk_noNewline G pos l st :
  noNewline l -> scanChunk G 0 l pos st = st.
Proof.
  intros Hl. revert pos. induction Hl as [|b l Hb _ IH]; intros pos; [done|].
  cbn [scanChunk]. unfold scanByte. rewrite Hb. apply IH.
Qed.

Lemma scanChunk_record G pos r st :
  noNewline r ->
  scanChunk G 0 (r ++ [NEWLINE]) pos st
  = scanByte G 0 (pos + Z.of_nat (length r)) NEWLINE st.
Proof.
  intros Hr. rewrite scanChunk_app, (scanChunk_noNewline _ _ _ _ Hr).
  reflexivity.
Qed.

Lemma succ_div_mod G j :
  (1 <= G)%nat ->
  if decide (S (j mod G) = G)
  then (S j / G = S (j / G) /\ S j mod G = 0 /\ S (j / G) * G = S j)%nat
  else (S j / G = j / G /\ S j mod G = S (j mod G))%nat.
Proof.
  intros HG. pose proof (Nat.div_mod_eq j G) as Hdm.
  pose proof (Nat.mod_upper_bound j G ltac:(lia)) as Hlt.
  case_decide as Hcase.
  - assert (S j = G * S (j / G) + 0)%nat as Heq by lia.
    split; [|split].
    + symmetry. by apply (Nat.div_unique _ _ _ 0%nat); [lia|].
    + symmetry. by apply (Nat.mod_unique _ _ (S (j / G))); [lia|].
    + lia.
  - assert (S j = G * (j / G) + S (j mod G))%nat as Heq by lia.
    split.
    + symmetry. apply (Nat.div_unique _ _ _ (S (j mod G))); [lia|done].
    + symmetry. apply (Nat.mod_unique _ _ (j / G)); [lia|done].
Qed.

Lemma scan_records G recs j :
  (1 <= G)%nat -> Forall noNewline recs -> (j <= length recs)%nat ->
  scanChunk (Z.of_nat G) 0 (terminated (take j recs)) 0 (mkScan [0] 0 0)
  = scanned recs G j.
Proof.
  intros HG Hrecs. induction j as [|j IH]; intros Hj.
  - unfold scanned. rewrite Nat.Div0.mod_0_l, Nat.Div0.div_0_l. reflexivity.
  - destruct (lookup_lt_is_Some_2 recs j ltac:(lia)) as [r Hr].
    rewrite (take_S_r _ _ _ Hr), terminated_app, scanChunk_app, IH by lia.
    cbn [terminated flat_map]. rewrite app_nil_r, Z.add_0_l.
    rewrite scanChunk_record
      by (eapply Forall_lookup_1; [apply Hrecs|apply Hr]).
    fold (recordStart recs j).
    assert (recordStart recs j + Z.of_nat (length r) + 1
            = recordStart recs (S j)) as Hnext.
    { unfold recordStart. rewrite (take_S_r _ _ _ Hr), terminated_app.
      cbn [terminated flat_map]. rewrite app_nil_r, !length_app. simpl. lia. }
    unfold scanByte, scanned.
    change (is_newline NEWLINE) with true. cbv iota.
    cbn [scan_offsets scan_totalRows scan_rowsSinceLastIndex].
    pose proof (succ_div_mod G j HG) as Hdm.
    pose proof (Nat.mod_upper_bound j G ltac:(lia)) as Hlt.
    replace (0 + (recordStart recs j + Z.of_nat (length r)) + 1)
      with (recordStart recs (S j)) by lia.
    case_decide as Hcase.
    + destruct Hdm as (Hdiv & Hmod & Hmul).
      destruct (Z.leb_spec (Z.of_nat G) (Z.of_nat (j mod G) + 1)); [|lia].
      rewrite Hdiv, Hmod, (seq_S (S (j / G))), map_app.
      cbn [map Nat.add]. rewrite Hmul. f_equal. lia.
    + destruct Hdm as (Hdiv & Hmod).
      destruct (Z.leb_spec (Z.of_nat G) (Z.of_nat (j mod G) + 1)); [lia|].
      rewrite Hdiv, Hmod. f_equal; lia.
Qed.

(** ** parseRows always returns, with rows of the requested width *)

Lemma relativeIndex_nonneg len k :
  0 <= len -> 0 <= k -> relativeIndex len k = Z.min k len.
Proof.
  intros _ Hk. unfold relativeIndex.
  by destruct (Z.ltb_spec k 0); [lia|].
Qed.

Lemma length_Array_slice_le {A} (l : list A) a c :
  0 <= a -> 0 <= c ->
  (length (Array_slice l a (a + c)) <= Z.to_nat c)%nat.
Proof.
  intros Ha Hc. unfold Array_slice.
  rewrite !relativeIndex_nonneg by lia. rewrite length_take. lia.
Qed.

Lemma length_padCells cells colCount :
  (length cells <= Z.to_nat colCount)%nat ->
  length (padCells cells colCount) = Z.to_nat colCount.
Proof.
  intros Hle. unfold padCells. rewrite length_app, length_replicate. lia.
Qed.

Lemma scanLine_spec rest :
  exists line after,
    scanLine rest = (line, after) /\ rest = line ++ after
    /\ noNewline line
    /\ (after = [] \/ exists more, after = NEWLINE :: more).
Proof.
  induction rest as [|b rest (line & after & Hscan & Heq & Hline & Hafter)].
  - exists [], []. repeat split; [constructor|by left].
  - cbn [scanLine]. destruct (is_newline b) eqn:Hb.
    + exists [], (b :: rest). repeat split; [constructor|].
      right. apply Byte.byte_dec_bl in Hb as ->. by eexists.
    + rewrite Hscan. exists (b :: line), after.
      repeat split; [by rewrite Heq|by constructor|done].
Qed.

Lemma length_skipLoop rest k K :
  (length (skipLoop rest k K) <= length rest)%nat.
Proof.
  revert k. induction rest as [|b rest IH]; intros k; cbn [skipLoop]; [done|].
  destruct (k <? K); [|done]. specialize (IH (if is_newline b then k + 1 else k)).
  simpl. lia.
Qed.

Section Parse.
Variable decode : list byte -> string.

Lemma parseLoop_total fuel rest rows maxRows startCol colCount :
  (length rest < fuel)%nat -> 0 <= startCol -> 0 <= colCount ->
  Forall (fun row => length row = Z.to_nat colCount) rows ->
  exists out,
    parseLoop decode fuel rest rows maxRows startCol colCount = Some out
    /\ Forall (fun row => length row = Z.to_nat colCount) out
    /\ Z.of_nat (length out) <= Z.max (Z.of_nat (length rows)) maxRows.
Proof.
  intros Hfuel Hsc Hcc. revert rest rows Hfuel.
  induction fuel as [|fuel IH]; intros rest rows Hfuel Hrows; [lia|].
  destruct rest as [|b rest']; cbn [parseLoop].
  { exists rows. split; [done|]. split; [done|lia]. }
  remember (b :: rest') as rest eqn:Hrest.
  assert (1 <= length rest)%nat as Hne by (subst rest; simpl; lia).
  clear Hrest.
  destruct (Z.ltb_spec (Z.of_nat (length rows)) maxRows) as [Hlt|Hge];
    [|exists rows; split; [done|]; split; [done|lia]].
  destruct (scanLine_spec rest) as (line & after & -> & Heq & _ & Hafter).
  assert (length (drop 1 after) < fuel)%nat as Hfuel'.
  { rewrite length_drop. apply (f_equal length) in Heq.
    rewrite length_app in Heq.
    destruct Hafter as [->|[more ->]]; cbn [length] in *; lia. }
  destruct line as [|c line].
  - destruct (IH _ rows Hfuel' Hrows) as (out & -> & Hout & Hlen).
    by exists out.
  - edestruct (IH (drop 1 after)
                 (rows ++ [padCells (Array_slice (splitLine (decode (c :: line)))
                                            startCol (startCol + colCount))
                                    colCount]))
      as (out & Hrun & Hout & Hlen); [done| |].
    { apply Forall_app. split; [done|]. constructor; [|done].
      apply length_padCells. by apply length_Array_slice_le. }
    rewrite Hrun. exists out. split; [done|]. split; [done|].
    rewrite length_app in Hlen. cbn [length] in Hlen. lia.
Qed.

Lemma parseRows_total data skipRows maxRows startCol colCount :
  0 <= startCol -> 0 <= colCount -> 0 <= maxRows ->
  exists rows,
    parseRows decode data skipRows maxRows startCol colCount = Some rows
    /\ Forall (fun row => length row = Z.to_nat colCount) rows
    /\ Z.of_nat (length rows) <= maxRows.
Proof.
  intros Hsc Hcc Hmax. unfold parseRows.
  destruct (parseLoop_total (S (length data)) (skipLoop data 0 skipRows) []
              maxRows startCol colCount) as (out & Hrun & Hout & Hlen);
    [|done|done|done|].
  { pose proof (length_skipLoop data 0 skipRows). lia. }
  exists out. split; [done|]. split; [done|]. cbn [length] in Hlen. lia.
Qed.
End Parse.

(** ** The index of a file, and getSlice on it *)

Lemma scan_file G recs tail :
  (1 <= G)%nat -> Forall noNewline recs -> noNewline tail ->
  scanChunk (Z.of_nat G) 0 (terminated recs ++ tail) 0 (mkScan [0] 0 0)
  = scanned recs G (length recs).
Proof.
  intros HG Hrecs Htail.
  rewrite scanChunk_app, scanChunk_noNewline by done.
  rewrite <- (firstn_all recs) at 1. by apply scan_records.
Qed.

Lemma buildIndex_records chunks G :
  1 <= G -> Z.of_nat (length (concat chunks)) < 2 ^ 64 ->
  buildIndex chunks G
  = mkFileIndex
      (Z.of_nat (length (records (concat chunks))))
      (map (fun k => recordStart (records (concat chunks)) (k * Z.to_nat G))
           (seq 0 (S (length (records (concat chunks)) / Z.to_nat G))))
      G.
Proof.
  intros HG Hsize. pose proof (buildIndex_offsets chunks G Hsize) as Hoffs.
  unfold buildIndex in *. cbn [offsets] in Hoffs. rewrite Hoffs.
  rewrite scanStream_flat.
  destruct (splitLines_spec (concat chunks)) as (Heq & Hrecs & Htail).
  rewrite <- (Z2Nat.id G) at 1 2 by lia.
  rewrite Heq at 1 2.
  rewrite scan_file by (done || lia). reflexivity.
Qed.

Lemma anchor_lookup recs G sr :
  1 <= G -> 0 <= sr <= Z.of_nat (length recs) ->
  typedArray_get
    (map (fun k => recordStart recs (k * Z.to_nat G))
         (seq 0 (S (length recs / Z.to_nat G))))
    (Math_floor_div sr G)
  = Some (recordStart recs (Z.to_nat sr / Z.to_nat G * Z.to_nat G)).
Proof.
  intros HG Hsr. unfold typedArray_get, Math_floor_div.
  assert (sr / G = Z.of_nat (Z.to_nat sr / Z.to_nat G)) as ->.
  { by rewrite Nat2Z.inj_div, !Z2Nat.id by lia. }
  destruct (Z.ltb_spec (Z.of_nat (Z.to_nat sr / Z.to_nat G)) 0) as [?|_];
    [lia|].
  rewrite Nat2Z.id, list_lookup_fmap, lookup_seq_lt; [done|].
  pose proof (Nat.Div0.div_le_mono (Z.to_nat sr) (length recs) (Z.to_nat G)
                                   ltac:(lia)).
  lia.
Qed.

Section Consistency.
Variable decode : list byte -> string.

(** Whatever index the slicer holds, a response is consistent. *)
Lemma getSlice_consistent_any s startRow rowCount startCol colCount r :
  0 <= colCount ->
  getSlice decode s startRow rowCount startCol colCount = Some r ->
  Z.of_nat (length (resp_cellsByRow r)) = resp_rowCount r
  /\ Forall (fun row => Z.of_nat (length row) = resp_colCount r)
            (resp_cellsByRow r).
Proof.
  intros Hcc. unfold getSlice.
  set (sr := Z.max 0 (Z.min startRow (totalRows (index s) - 1))).
  set (rc := Z.min rowCount (totalRows (index s) - sr)).
  set (sc := Z.max 0 (Z.min startCol (TOTAL_COLS - 1))).
  set (cc := Z.min colCount (TOTAL_COLS - sc)).
  assert (0 <= sc <= 1) as Hsc by (unfold sc, TOTAL_COLS; lia).
  assert (0 <= cc) as Hcc' by (unfold cc, TOTAL_COLS; lia).
  destruct (Z.leb_spec rc 0) as [_|Hrc].
  { intros [= <-]. cbn. split; [done|constructor]. }
  destruct (granularity (index s) =? 0); [done|].
  destruct (typedArray_get _ _) as [indexOffset|]; [|done]. cbn [mbind option_bind].
  match goal with
  | |- context [parseRows decode ?chunk ?skip rc sc cc] =>
      destruct (parseRows_total decode chunk skip rc sc cc)
        as (rows & Hrows & Hshape & _); [lia..|]
  end.
  rewrite Hrows. cbn [mbind option_bind].
  assert (forall out : list (list string),
            Forall (fun row => length row = Z.to_nat cc) out ->
            Forall (fun row => Z.of_nat (length row) = cc) out) as Hwidth.
  { intros out Hout. eapply Forall_impl; [exact Hout|].
    intros row Hrow. cbv beta in *. lia. }
  destruct (_ && _).
  - destruct (_ <? _).
    + match goal with
      | |- context [parseRows decode ?chunk ?skip rc sc cc] =>
          destruct (parseRows_total decode chunk skip rc sc cc)
            as (more & Hmore & Hshape' & _); [lia..|]
      end.
      rewrite Hmore. cbn [mbind option_bind]. intros [= <-]. cbn. auto.
    + intros [= <-]. cbn. auto.
  - intros [= <-]. cbn. auto.
Qed.
End Consistency.

Section Returns.
Variable decode : list byte -> string.

Lemma getSlice_returns chunks G startRow rowCount startCol colCount :
  1 <= G -> Z.of_nat (length (concat chunks)) < 2 ^ 64 ->
  0 <= colCount ->
  exists r,
    getSlice decode (newSlicer (concat chunks) (buildIndex chunks G))
             startRow rowCount startCol colCount = Some r.
Proof.
  intros HG Hsize Hcc. rewrite buildIndex_records by done.
  unfold getSlice, newSlicer. cbn [index totalRows granularity offsets fileSize].
  set (recs := records (concat chunks)).
  set (n := Z.of_nat (length recs)).
  set (sr := Z.max 0 (Z.min startRow (n - 1))).
  set (rc := Z.min rowCount (n - sr)).
  set (sc := Z.max 0 (Z.min startCol (TOTAL_COLS - 1))).
  set (cc := Z.min colCount (TOTAL_COLS - sc)).
  assert (0 <= sc <= 1) as Hsc by (unfold sc, TOTAL_COLS; lia).
  assert (0 <= cc) as Hcc' by (unfold cc, TOTAL_COLS; lia).
  destruct (Z.leb_spec rc 0) as [_|Hrc]; [by eexists|].
  destruct (Z.eqb_spec G 0) as [?|_]; [lia|].
  assert (0 <= sr < n) as Hsr by lia.
  rewrite anchor_lookup by lia. cbn [mbind option_bind].
  match goal with
  | |- context [parseRows decode ?chunk ?skip rc sc cc] =>
      destruct (parseRows_total decode chunk skip rc sc cc)
        as (rows & Hrows & _); [lia..|]
  end.
  rewrite Hrows. cbn [mbind option_bind].
  destruct (_ && _); [|by eexists].
  destruct (_ <? _); [|by eexists].
  match goal with
  | |- context [parseRows decode ?chunk ?skip rc sc cc] =>
      destruct (parseRows_total decode chunk skip rc sc cc)
        as (more & Hmore & _); [lia..|]
  end.
  rewrite Hmore. by eexists.
Qed.
End Returns.

(** ** parseRows on a chunk that holds the requested records *)

Lemma skipLoop_done data K : skipLoop data K K = data.
Proof. destruct data; cbn [skipLoop]; [done|]. by rewrite Z.ltb_irrefl. Qed.

Lemma skipLoop_record r more k K :
  noNewline r -> k < K ->
  skipLoop (r ++ NEWLINE :: more) k K = skipLoop more (k + 1) K.
Proof.
  intros Hr Hk. induction Hr as [|b r Hb _ IH]; cbn [app skipLoop].
  - destruct (Z.ltb_spec k K); [done|lia].
  - destruct (Z.ltb_spec k K); [|lia]. by rewrite Hb.
Qed.

Lemma skipLoop_records rs more k :
  Forall noNewline rs ->
  skipLoop (terminated rs ++ more) k (k + Z.of_nat (length rs)) = more.
Proof.
  intros Hrs. revert k. induction Hrs as [|r rs Hr _ IH]; intros k.
  - cbn [terminated flat_map length app]. rewrite Z.add_0_r.
    apply skipLoop_done.
  - cbn [terminated flat_map length]. rewrite <- !app_assoc. cbn [app].
    rewrite skipLoop_record by (done || lia).
    replace (k + Z.of_nat (S (length rs))) with (k + 1 + Z.of_nat (length rs))
      by lia.
    apply IH.
Qed.

Lemma scanLine_record r more :
  noNewline r -> scanLine (r ++ NEWLINE :: more) = (r, NEWLINE :: more).
Proof.
  induction 1 as [|b r Hb _ IH]; cbn [app scanLine]; [done|].
  by rewrite Hb, IH.
Qed.

Lemma scanLine_noNewline line :
  noNewline line -> scanLine line = (line, []).
Proof.
  induction 1 as [|b line Hb _ IH]; cbn [scanLine]; [done|].
  by rewrite Hb, IH.
Qed.

Lemma length_terminated_ge rs : (length rs <= length (terminated rs))%nat.
Proof.
  induction rs as [|r rs IH]; cbn [terminated flat_map length]; [done|].
  rewrite !length_app. cbn [length]. fold (terminated rs). lia.
Qed.

Section Records.
Variable decode : list byte -> string.

Lemma parseLoop_records fuel rs more rows maxRows startCol colCount :
  Forall noNewline rs -> Forall (fun r => r <> []) rs ->
  Z.of_nat (length rows + length rs) = maxRows ->
  (length rs < fuel)%nat ->
  exists out,
    parseLoop decode fuel (terminated rs ++ more) rows
              maxRows startCol colCount = Some out
    /\ Z.of_nat (length out) = maxRows.
Proof.
  intros Hrs. revert fuel rows.
  induction Hrs as [|r rs Hr _ IH]; intros fuel rows Hne Hmax Hfuel.
  - destruct fuel as [|fuel]; [cbn [length] in Hfuel; lia|].
    cbn [terminated flat_map app parseLoop length] in *.
    destruct more as [|b more]; [exists rows; split; [done|lia]|].
    destruct (Z.ltb_spec (Z.of_nat (length rows)) maxRows); [lia|].
    exists rows. split; [done|lia].
  - destruct fuel as [|fuel]; [lia|].
    apply Forall_cons in Hne as [Hrne Hne'].
    cbn [terminated flat_map length] in *. rewrite <- !app_assoc. cbn [app].
    fold (terminated rs).
    destruct r as [|c r]; [done|].
    cbn [app parseLoop].
    destruct (Z.ltb_spec (Z.of_nat (length rows)) maxRows); [|lia].
    change (c :: r ++ NEWLINE :: terminated rs ++ more)
      with ((c :: r) ++ NEWLINE :: terminated rs ++ more).
    rewrite scanLine_record by done. cbn [drop].
    edestruct (IH fuel
       (rows ++ [padCells (Array_slice (splitLine (decode (c :: r)))
                             startCol (startCol + colCount)) colCount]))
      as (out & Hrun & Hlen); [done| |lia|].
    { rewrite length_app. cbn [length]. lia. }
    rewrite drop_0, Hrun. by exists out.
Qed.
End Records.

Lemma recordStart_add recs j m :
  recordStart recs (j + m)
  = recordStart recs j + Z.of_nat (length (terminated (take m (drop j recs)))).
Proof.
  unfold recordStart. rewrite <- take_take_drop, terminated_app, length_app.
  lia.
Qed.

Lemma drop_recordStart recs tail j :
  drop (Z.to_nat (recordStart recs j)) (terminated recs ++ tail)
  = terminated (drop j recs) ++ tail.
Proof.
  unfold recordStart. rewrite Nat2Z.id.
  rewrite <- (take_drop j recs) at 2. rewrite terminated_app, <- app_assoc.
  by rewrite drop_app_length.
Qed.

Lemma recordStart_le recs tail j :
  recordStart recs j <= Z.of_nat (length (terminated recs ++ tail)).
Proof.
  unfold recordStart. rewrite <- (take_drop j recs) at 2.
  rewrite terminated_app, !length_app. lia.
Qed.

Lemma readBytes_window s a len :
  0 <= a -> 0 <= len -> a + len <= Z.of_nat (length (file s)) ->
  readBytes s a len = take (Z.to_nat len) (drop (Z.to_nat a) (file s)).
Proof.
  intros Ha Hlen Hfit. unfold readBytes, Array_slice.
  rewrite !relativeIndex_nonneg by lia.
  do 2 f_equal; lia.
Qed.

(** ** getSlice when the requested records fit the first read *)

Section Exact.
Variable decode : list byte -> string.

Lemma getSlice_rowCount_fit chunks G startRow rowCount startCol colCount :
  1 <= G -> Z.of_nat (length (concat chunks)) < 2 ^ 64 ->
  0 <= startRow -> 0 <= rowCount ->
  startRow + rowCount <= Z.of_nat (length (records (concat chunks))) ->
  Forall (fun r => r <> []) (records (concat chunks)) ->
  recordStart (records (concat chunks)) (Z.to_nat (startRow + rowCount))
    - recordStart (records (concat chunks))
                  (Z.to_nat startRow / Z.to_nat G * Z.to_nat G)
    <= Z.max ((startRow - startRow / G * G + rowCount) * 30)
             READ_BUFFER_SIZE ->
  exists r,
    getSlice decode (newSlicer (concat chunks) (buildIndex chunks G))
             startRow rowCount startCol colCount = Some r
    /\ resp_rowCount r = rowCount.
Proof.
  intros HG Hsize Hsr0 Hrc0 Hrange Hne Hfit.
  rewrite buildIndex_records by done.
  destruct (splitLines_spec (concat chunks)) as (Hdata & Hrecs & Htail).
  set (data := concat chunks) in *.
  set (recs := records data) in *. set (tail := unterminated data) in *.
  unfold getSlice, newSlicer.
  cbn [index totalRows granularity offsets fileSize].
  set (n := Z.of_nat (length recs)) in *.
  set (sc := Z.max 0 (Z.min startCol (TOTAL_COLS - 1))).
  set (cc := Z.min colCount (TOTAL_COLS - sc)).
  destruct (Z.eq_dec rowCount 0) as [->|Hpos].
  { replace (Z.min 0 _) with 0 by lia. cbn. by eexists. }
  replace (Z.max 0 (Z.min startRow (n - 1))) with startRow by lia.
  replace (Z.min rowCount (n - startRow)) with rowCount by lia.
  destruct (Z.leb_spec rowCount 0) as [?|_]; [lia|].
  destruct (Z.eqb_spec G 0) as [?|_]; [lia|].
  rewrite anchor_lookup by lia. cbn [mbind option_bind].
  assert (exists j0 : nat,
            (j0 <= Z.to_nat startRow)%nat
            /\ Math_floor_div startRow G * G = Z.of_nat j0
            /\ (Z.to_nat startRow / Z.to_nat G * Z.to_nat G)%nat = j0)
    as (j0 & Hj0 & Hanchor & Hj0eq).
  { eexists. split; [|split; [|reflexivity]].
    - pose proof (Nat.div_mod_eq (Z.to_nat startRow) (Z.to_nat G)). lia.
    - unfold Math_floor_div.
      by rewrite Nat2Z.inj_mul, Nat2Z.inj_div, !Z2Nat.id by lia. }
  rewrite Hj0eq, Hanchor. unfold Math_floor_div in Hanchor.
  rewrite Hj0eq, Hanchor in Hfit. clear Hj0eq Hanchor.
  remember (Z.to_nat startRow) as i eqn:Hi.
  remember (Z.to_nat rowCount) as c eqn:Hc.
  set (a := recordStart recs j0) in *.
  set (skip := startRow - Z.of_nat j0) in *.
  assert (skip = Z.of_nat (i - j0)) as Hskip by (subst skip; lia).
  set (window := terminated (take (i - j0 + c) (drop j0 recs))).
  assert (Z.of_nat (length window)
          <= Z.max ((skip + rowCount) * 30) READ_BUFFER_SIZE) as Hwin.
  { replace (Z.to_nat (startRow + rowCount)) with (j0 + (i - j0 + c))%nat
      in Hfit by lia.
    rewrite recordStart_add in Hfit. fold window in Hfit. lia. }
  assert (drop (Z.to_nat a) data
          = window ++ terminated (drop (i - j0 + c) (drop j0 recs)) ++ tail)
    as Hdrop.
  { rewrite Hdata. unfold a. rewrite drop_recordStart.
    rewrite <- (take_drop (i - j0 + c) (drop j0 recs)) at 1.
    by rewrite terminated_app, <- app_assoc. }
  assert (0 <= a /\ a + Z.of_nat (length window) <= Z.of_nat (length data))
    as [Ha Hroom].
  { split; [unfold a, recordStart; lia|].
    apply (f_equal length) in Hdrop.
    rewrite length_drop, !length_app in Hdrop.
    pose proof (recordStart_le recs tail j0) as Hle. rewrite <- Hdata in Hle.
    fold a in Hle. lia. }
  set (len := Z.min (Z.max ((skip + rowCount) * 30) READ_BUFFER_SIZE)
                    (Z.of_nat (length data) - a)).
  assert (Z.of_nat (length window) <= len) as Hlen by (unfold len; lia).
  rewrite readBytes_window by (cbn [file]; unfold len; lia).
  cbn [file].
  rewrite Hdrop, take_app_ge by lia.
  set (rest := take (Z.to_nat len - length window) _).
  assert (window = terminated (take (i - j0) (drop j0 recs))
                   ++ terminated (take c (drop i recs))) as Hsplit.
  { unfold window. rewrite <- take_take_drop, terminated_app, drop_drop.
    by replace (j0 + (i - j0))%nat with i by lia. }
  assert (length (take (i - j0) (drop j0 recs)) = (i - j0)%nat) as Hl1.
  { rewrite length_take, length_drop. unfold n in Hrange. lia. }
  assert (length (take c (drop i recs)) = c) as Hl2.
  { rewrite length_take, length_drop. unfold n in Hrange. lia. }
  unfold parseRows.
  set (fuel := S (length (window ++ rest))).
  rewrite Hsplit, <- !app_assoc.
  pose proof (skipLoop_records (take (i - j0) (drop j0 recs))
                (terminated (take c (drop i recs)) ++ rest) 0) as Hskipped.
  rewrite Z.add_0_l, Hl1, <- Hskip in Hskipped.
  rewrite Hskipped by (apply Forall_take, Forall_drop; exact Hrecs).
  clear Hskipped.
  edestruct (parseLoop_records decode fuel
               (take c (drop i recs)) rest [] rowCount sc cc)
    as (rows & Hrows & Hcount).
  { apply Forall_take, Forall_drop; exact Hrecs. }
  { apply Forall_take, Forall_drop; exact Hne. }
  { rewrite Hl2. cbn [length]. lia. }
  { unfold fuel. rewrite Hsplit, !length_app.
    pose proof (length_terminated_ge (take c (drop i recs))). lia. }
  rewrite Hrows. cbn [mbind option_bind]. rewrite Hcount.
  rewrite Z.ltb_irrefl. cbn [andb]. eexists. split; [reflexivity|done].
Qed.
End Exact.

Lemma length_terminated_le rs bound :
  Forall (fun r => (length r < bound)%nat) rs ->
  (length (terminated rs) <= bound * length rs)%nat.
Proof.
  induction 1 as [|r rs Hr _ IH]; cbn [terminated flat_map length]; [lia|].
  fold (terminated rs). rewrite !length_app. cbn [length]. lia.
Qed.

(** ** parseRows on a chunk that ends anywhere in the file *)

Lemma linesStarted_nonpos rs limit :
  limit <= 0 -> linesStarted rs limit = 0%nat.
Proof.
  intros Hl. destruct rs as [|r rs]; cbn [linesStarted]; [done|].
  by destruct (Z.ltb_spec 0 limit); [lia|].
Qed.

(** All the records have started before [limit] exactly when the last one
    has. *)
Lemma linesStarted_all rs limit :
  linesStarted rs limit = length rs
  <-> rs = []
      \/ Z.of_nat (length (terminated (take (length rs - 1) rs))) < limit.
Proof.
  revert limit. induction rs as [|r rs IH]; intros limit.
  - cbn. split; [by left|done].
  - cbn [linesStarted length]. rewrite Nat.sub_succ, Nat.sub_0_r.
    specialize (IH (limit - Z.of_nat (length r) - 1)).
    destruct rs as [|r' rs].
    + cbn. destruct (Z.ltb_spec 0 limit); split; try done.
      * intros _. right. lia.
      * intros [?|?]; [done|lia].
    + cbn [length] in *. rewrite Nat.sub_succ, Nat.sub_0_r in IH.
      cbn [take]. cbn [terminated flat_map].
      fold (terminated (take (length rs) (r' :: rs))).
      rewrite !length_app. cbn [length].
      destruct (Z.ltb_spec 0 limit) as [Hpos|Hneg].
      * split.
        -- intros [= H]. apply IH in H as [?|H]; [done|]. right. lia.
        -- intros [?|H]; [done|]. f_equal. apply IH. right. lia.
      * split; [done|]. intros [?|H]; [done|]. lia.
Qed.

Lemma skipLoop_noNewline l k K :
  noNewline l -> k < K -> skipLoop l k K = [].
Proof.
  intros Hl Hk. induction Hl as [|b l Hb _ IH]; cbn [skipLoop]; [done|].
  destruct (Z.ltb_spec k K); [|lia]. by rewrite Hb.
Qed.

Lemma noNewline_take n l : noNewline l -> noNewline (take n l).
Proof. apply Forall_take. Qed.

(** The skip loop on a chunk cut after [L] bytes: what is left of the
    chunk after the skipped records, nothing when the chunk ends
    before. *)
Lemma skipLoop_truncated rs more L k :
  Forall noNewline rs ->
  skipLoop (take L (terminated rs ++ more)) k (k + Z.of_nat (length rs))
  = take (L - length (terminated rs)) more.
Proof.
  intros Hrs. revert L k. induction Hrs as [|r rs Hr _ IH]; intros L k.
  - cbn [terminated flat_map length app]. rewrite Z.add_0_r, Nat.sub_0_r.
    apply skipLoop_done.
  - cbn [terminated flat_map length]. fold (terminated rs).
    rewrite <- !app_assoc. cbn [app].
    destruct (Nat.le_gt_cases L (length r)) as [Hle|Hgt].
    + rewrite take_app_le by done.
      rewrite skipLoop_noNewline by (by apply noNewline_take || lia).
      rewrite !length_app. cbn [length].
      by replace (L - _)%nat with 0%nat by lia.
    + rewrite take_app_ge by lia.
      replace (L - length r)%nat with (S (L - length r - 1)) by lia.
      cbn [take]. rewrite skipLoop_record by (done || lia).
      replace (k + Z.of_nat (S (length rs)))
        with (k + 1 + Z.of_nat (length rs)) by lia.
      rewrite IH. f_equal. rewrite !length_app. cbn [length]. lia.
Qed.

Lemma terminated_last_lt rs :
  (0 < length rs)%nat ->
  (length (terminated (take (length rs - 1) rs)) < length (terminated rs))%nat.
Proof.
  intros Hrs.
  assert (terminated rs
          = terminated (take (length rs - 1) rs)
              ++ terminated (drop (length rs - 1) rs)) as ->
    by (by rewrite <- terminated_app, take_drop).
  rewrite length_app.
  pose proof (length_terminated_ge (drop (length rs - 1) rs)) as Hge.
  rewrite length_drop in Hge. lia.
Qed.

Lemma rowsStarted_nonpos ls limit :
  limit <= 0 -> rowsStarted ls limit = 0%nat.
Proof.
  intros Hl. destruct ls as [|l ls]; cbn [rowsStarted]; [done|].
  by destruct (Z.ltb_spec 0 limit); [lia|].
Qed.

Lemma rowsStarted_max0 ls limit :
  rowsStarted ls (Z.max 0 limit) = rowsStarted ls limit.
Proof.
  destruct (Z.le_gt_cases limit 0).
  - by rewrite !rowsStarted_nonpos by lia.
  - by replace (Z.max 0 limit) with limit by lia.
Qed.

(** Of records that are not empty, as many rows start as records, up to
    their number. *)
Lemma rowsStarted_linesStarted rs rest limit :
  forallb nonEmpty rs = true ->
  (length rs `min` rowsStarted (rs ++ rest) limit)%nat = linesStarted rs limit.
Proof.
  revert limit. induction rs as [|r rs IH]; intros limit Hne; [done|].
  cbn [forallb] in Hne. apply andb_prop in Hne as [Hr Hne].
  cbn [app length rowsStarted linesStarted]. rewrite Hr.
  destruct (0 <? limit); [|done].
  cbn [Nat.add]. rewrite <- Nat.succ_min_distr. f_equal. by apply IH.
Qed.

Lemma rowsStarted_requested recs tail i c limit :
  (i + c <= length recs)%nat ->
  forallb nonEmpty (take c (drop i recs)) = true ->
  Z.min (Z.of_nat c) (Z.of_nat (rowsStarted (drop i recs ++ [tail]) limit))
  = Z.of_nat (linesStarted (take c (drop i recs)) limit).
Proof.
  intros Hrange Hne.
  rewrite <- (take_drop c (drop i recs)) at 1. rewrite <- app_assoc.
  set (rest := drop _ _ ++ _).
  rewrite <- (rowsStarted_linesStarted _ rest limit Hne).
  rewrite length_take, length_drop. lia.
Qed.

Section Truncated.
Variable decode : list byte -> string.

(** The parse loop on a chunk that ends after [M] bytes of the lines
    [rs], each ended by a terminator, and [tail]: one row for every line
    that is not empty and has started, the last of them possibly cut, up
    to [maxRows] rows. *)
Lemma parseLoop_truncated fuel rs tail M rows maxRows startCol colCount :
  Forall noNewline rs -> noNewline tail ->
  Z.of_nat (length rows) <= maxRows ->
  (length (take M (terminated rs ++ tail)) < fuel)%nat ->
  exists out,
    parseLoop decode fuel (take M (terminated rs ++ tail)) rows
              maxRows startCol colCount = Some out
    /\ Z.of_nat (length out)
       = Z.min maxRows
           (Z.of_nat (length rows + rowsStarted (rs ++ [tail]) (Z.of_nat M))).
Proof.
  intros Hrs Htail. revert fuel M rows.
  induction Hrs as [|r rs Hr _ IH]; intros fuel M rows Hmax Hfuel.
  - destruct fuel as [|fuel]; [lia|].
    cbn [terminated flat_map app] in *. cbn [rowsStarted].
    destruct M as [|M].
    { cbn. exists rows. split; [done|]. change (Z.of_nat 0) with 0. cbn. lia. }
    destruct tail as [|b tail].
    { cbn. exists rows. split; [done|].
      destruct (0 <? Z.of_nat (S M)); lia. }
    destruct (Z.ltb_spec 0 (Z.of_nat (S M))); [|lia].
    cbn [take parseLoop nonEmpty length] in *.
    destruct (Z.ltb_spec (Z.of_nat (length rows)) maxRows).
    + rewrite (scanLine_noNewline (b :: take M tail))
        by (apply Forall_cons; apply Forall_cons in Htail as [? ?];
            split; [done|by apply Forall_take]).
      cbn [drop]. destruct fuel as [|fuel]; [lia|]. cbn [parseLoop].
      eexists. split; [reflexivity|]. rewrite length_app. cbn [length]. lia.
    + exists rows. split; [done|]. lia.
  - cbn [terminated flat_map length] in *. fold (terminated rs) in *.
    rewrite <- !app_assoc in *. cbn [app] in *.
    destruct fuel as [|fuel]; [lia|].
    destruct M as [|M].
    { cbn. exists rows. split; [done|]. change (Z.of_nat 0) with 0. cbn. lia. }
    cbn [rowsStarted]. destruct (Z.ltb_spec 0 (Z.of_nat (S M))); [|lia].
    destruct r as [|c r].
    + (* an empty line *)
      cbn [app take parseLoop nonEmpty length Nat.add] in *.
      destruct (Z.ltb_spec (Z.of_nat (length rows)) maxRows).
      * change (scanLine (NEWLINE :: ?x)) with (@nil byte, NEWLINE :: x).
        cbn [drop]. rewrite drop_0.
        edestruct (IH fuel M rows) as (out & Hrun & Hlen); [done|lia|].
        exists out. split; [done|]. rewrite Hlen.
        by replace (Z.of_nat (S M) - Z.of_nat 0 - 1) with (Z.of_nat M) by lia.
      * exists rows. split; [done|]. lia.
    + cbn [app take parseLoop nonEmpty length] in *.
      destruct (Z.ltb_spec (Z.of_nat (length rows)) maxRows);
        [|exists rows; split; [done|lia]].
      destruct (Nat.le_gt_cases M (length r)) as [Hle|Hgt].
      * (* the chunk ends inside this line *)
        rewrite take_app_le in * by done.
        rewrite (scanLine_noNewline (c :: take M r))
          by (apply Forall_cons; apply Forall_cons in Hr as [? ?];
              split; [done|by apply Forall_take]).
        cbn [drop]. destruct fuel as [|fuel]; [lia|]. cbn [parseLoop].
        eexists. split; [reflexivity|]. rewrite length_app. cbn [length].
        rewrite rowsStarted_nonpos by lia. lia.
      * rewrite take_app_ge in * by lia.
        replace (M - length r)%nat with (S (M - length r - 1)) in * by lia.
        cbn [take] in *.
        change (c :: r ++ NEWLINE :: ?x) with ((c :: r) ++ NEWLINE :: x).
        rewrite scanLine_record by done. cbn [drop]. rewrite drop_0.
        edestruct (IH fuel (M - length r - 1)%nat
           (rows ++ [padCells (Array_slice (splitLine (decode (c :: r)))
                                 startCol (startCol + colCount)) colCount]))
          as (out & Hrun & Hlen).
        { rewrite length_app. cbn [length]. lia. }
        { rewrite length_app in Hfuel. cbn [length] in Hfuel. lia. }
        exists out. split; [done|]. rewrite Hlen, length_app. cbn [length].
        replace (Z.of_nat (M - length r - 1))
          with (Z.of_nat (S M) - Z.of_nat (S (length r)) - 1) by lia.
        f_equal. lia.
Qed.

(** [parseRows] on the first [L] bytes of records to skip followed by the
    lines [rs] and [tail]. *)
Lemma parseRows_truncated skipped rs tail L maxRows startCol colCount :
  Forall noNewline skipped -> Forall noNewline rs -> noNewline tail ->
  0 <= maxRows ->
  exists rows,
    parseRows decode
      (take L (terminated skipped ++ terminated rs ++ tail))
      (Z.of_nat (length skipped)) maxRows startCol colCount = Some rows
    /\ Z.of_nat (length rows)
       = Z.min maxRows
           (Z.of_nat (rowsStarted (rs ++ [tail])
                        (Z.of_nat L - Z.of_nat (length (terminated skipped))))).
Proof.
  intros Hs Hr Htail Hmax. unfold parseRows.
  pose proof (skipLoop_truncated skipped (terminated rs ++ tail) L 0 Hs)
    as Hskip.
  rewrite Z.add_0_l in Hskip.
  set (chunk := take L _) in *.
  pose proof (length_skipLoop chunk 0 (Z.of_nat (length skipped))) as Hlen.
  rewrite Hskip in *. clear Hskip.
  edestruct (parseLoop_truncated (S (length chunk)) rs tail
               (L - length (terminated skipped)) [] maxRows startCol colCount)
    as (rows & Hrows & Hcount); [done|done|cbn [length]; lia|lia|].
  exists rows. split; [done|]. rewrite Hcount. cbn [length Nat.add].
  rewrite <- (rowsStarted_max0 _ (_ - _)). do 3 f_equal. lia.
Qed.
End Truncated.

(** ** getSlice on a file and its index: the rows of the response *)

Section Reached.
Variable decode : list byte -> string.

(** The response holds one row, up to [rowCount], for every line from
    record [startRow] on that is not empty and whose first byte lies in
    the bytes read last: the first read or, when that gave too few rows,
    the one retry. *)
Lemma getSlice_rowCount_started chunks G startRow rowCount startCol colCount :
  1 <= G -> Z.of_nat (length (concat chunks)) < 2 ^ 64 ->
  0 <= startRow -> 0 <= rowCount ->
  startRow + rowCount <= Z.of_nat (length (records (concat chunks))) ->
  let recs := records (concat chunks) in
  let lines := drop (Z.to_nat startRow) recs ++ [unterminated (concat chunks)] in
  let anchor := recordStart recs (Z.to_nat startRow / Z.to_nat G * Z.to_nat G) in
  let lead := recordStart recs (Z.to_nat startRow) - anchor in
  let available := Z.of_nat (length (concat chunks)) - anchor in
  let bytesToRead := firstReadLength (startRow mod G) rowCount available in
  let got :=
    Z.min rowCount (Z.of_nat (rowsStarted lines (bytesToRead - lead))) in
  let newBytesToRead := retryReadLength bytesToRead rowCount got available in
  exists r,
    getSlice decode (newSlicer (concat chunks) (buildIndex chunks G))
             startRow rowCount startCol colCount = Some r
    /\ resp_rowCount r
       = Z.min rowCount
           (Z.of_nat (rowsStarted lines (newBytesToRead - lead))).
Proof.
  intros HG Hsize Hsr0 Hrc0 Hrange. cbv zeta.
  rewrite buildIndex_records by done.
  destruct (splitLines_spec (concat chunks)) as (Hdata & Hrecs & Htail).
  set (data := concat chunks) in *.
  set (recs := records data) in *. set (tail := unterminated data) in *.
  unfold getSlice, newSlicer.
  cbn [index totalRows granularity offsets fileSize].
  set (n := Z.of_nat (length recs)) in *.
  set (sc := Z.max 0 (Z.min startCol (TOTAL_COLS - 1))).
  set (cc := Z.min colCount (TOTAL_COLS - sc)).
  destruct (Z.eq_dec rowCount 0) as [->|Hpos].
  { replace (Z.min 0 _) with 0 by lia. cbn [Z.leb Z.compare].
    eexists. split; [reflexivity|]. cbn [resp_rowCount]. lia. }
  replace (Z.max 0 (Z.min startRow (n - 1))) with startRow by lia.
  replace (Z.min rowCount (n - startRow)) with rowCount by lia.
  destruct (Z.leb_spec rowCount 0) as [?|_]; [lia|].
  destruct (Z.eqb_spec G 0) as [?|_]; [lia|].
  rewrite anchor_lookup by lia. cbn [mbind option_bind].
  assert (exists j0 : nat,
            (j0 <= Z.to_nat startRow)%nat
            /\ Math_floor_div startRow G * G = Z.of_nat j0
            /\ (Z.to_nat startRow / Z.to_nat G * Z.to_nat G)%nat = j0)
    as (j0 & Hj0 & Hanchor & Hj0eq).
  { eexists. split; [|split; [|reflexivity]].
    - pose proof (Nat.div_mod_eq (Z.to_nat startRow) (Z.to_nat G)). lia.
    - unfold Math_floor_div.
      by rewrite Nat2Z.inj_mul, Nat2Z.inj_div, !Z2Nat.id by lia. }
  rewrite Hj0eq, Hanchor.
  assert (startRow mod G = startRow - Z.of_nat j0) as Hmod.
  { unfold Math_floor_div in Hanchor. rewrite Z.mod_eq by lia. lia. }
  rewrite Hmod. clear Hj0eq Hanchor Hmod.
  remember (Z.to_nat startRow) as i eqn:Hi.
  set (a := recordStart recs j0) in *.
  set (skip := startRow - Z.of_nat j0) in *.
  set (skipped := take (i - j0) (drop j0 recs)).
  set (rest := drop i recs).
  assert (length skipped = (i - j0)%nat) as Hl1.
  { unfold skipped. rewrite length_take, length_drop. unfold n in Hrange. lia. }
  assert (skip = Z.of_nat (length skipped)) as Hskip
    by (rewrite Hl1; subst skip; lia).
  assert (recordStart recs i - a = Z.of_nat (length (terminated skipped)))
    as Hlead.
  { replace i with (j0 + (i - j0))%nat at 1 by lia.
    rewrite recordStart_add. fold skipped. unfold a. lia. }
  rewrite Hlead.
  assert (drop (Z.to_nat a) data
          = terminated skipped ++ terminated rest ++ tail) as Hdrop.
  { rewrite Hdata. unfold a. rewrite drop_recordStart.
    rewrite <- (take_drop (i - j0) (drop j0 recs)) at 1. fold skipped.
    rewrite drop_drop. replace (j0 + (i - j0))%nat with i by lia.
    fold rest. by rewrite terminated_app, <- app_assoc. }
  set (available := Z.of_nat (length data) - a).
  assert (0 <= a <= Z.of_nat (length data)) as Ha.
  { split; [unfold a, recordStart; lia|].
    pose proof (recordStart_le recs tail j0) as Hle. by rewrite <- Hdata in Hle. }
  unfold firstReadLength, retryReadLength.
  set (len := Z.min (Z.max ((skip + rowCount) * 30) READ_BUFFER_SIZE)
                    available).
  assert (0 <= len <= available) as Hlen
    by (unfold len, available, READ_BUFFER_SIZE; lia).
  rewrite readBytes_window by (cbn [file]; unfold available in Hlen; lia).
  cbn [file]. rewrite Hdrop.
  destruct (parseRows_truncated decode skipped rest tail (Z.to_nat len)
              rowCount sc cc) as (rows & Hrows & Hgot).
  { apply Forall_take, Forall_drop; exact Hrecs. }
  { apply Forall_drop; exact Hrecs. }
  { exact Htail. }
  { lia. }
  rewrite <- Hskip in Hrows. rewrite Hrows.
  cbn [mbind option_bind]. rewrite Z2Nat.id in Hgot by lia.
  set (lead := Z.of_nat (length (terminated skipped))) in *.
  rewrite Hgot.
  set (got := Z.min rowCount
                (Z.of_nat (rowsStarted (rest ++ [tail]) (len - lead)))) in *.
  destruct (Z.ltb_spec got rowCount) as [Hfew|Hall]; cbn [andb].
  - (* too few rows *)
    destruct (Z.ltb_spec (startRow + got) n) as [_|?]; [|lia].
    set (len2 := Z.min (len + (rowCount - got) * 50) available).
    destruct (Z.ltb_spec len len2) as [Hmore|Hnomore].
    + (* the retry *)
      assert (len2 <= available) as Hlen2 by (unfold len2; lia).
      rewrite readBytes_window
        by (cbn [file]; unfold available in Hlen2; lia).
      cbn [file]. rewrite Hdrop.
      destruct (parseRows_truncated decode skipped rest tail (Z.to_nat len2)
                  rowCount sc cc) as (rows2 & Hrows2 & Hgot2).
      { apply Forall_take, Forall_drop; exact Hrecs. }
      { apply Forall_drop; exact Hrecs. }
      { exact Htail. }
      { lia. }
      rewrite <- Hskip in Hrows2. rewrite Hrows2.
      cbn [mbind option_bind]. rewrite Z2Nat.id in Hgot2 by lia.
      eexists. split; [reflexivity|]. cbn [resp_rowCount]. exact Hgot2.
    + (* the first read took the rest of the file *)
      eexists. split; [reflexivity|]. cbn [resp_rowCount].
      by assert (len2 = len) as -> by (unfold len2 in *; lia).
  - (* the first read gave every row *)
    eexists. split; [reflexivity|]. cbn [resp_rowCount].
    by replace (Z.min (len + (rowCount - got) * 50) available) with len
      by (unfold got in *; lia).
Qed.

(** When the requested records are not empty, these are the requested
    records whose first byte lies in the bytes read last. *)
Lemma getSlice_rowCount_reached chunks G startRow rowCount startCol colCount :
  1 <= G -> Z.of_nat (length (concat chunks)) < 2 ^ 64 ->
  0 <= startRow -> 0 <= rowCount ->
  startRow + rowCount <= Z.of_nat (length (records (concat chunks))) ->
  forallb nonEmpty (take (Z.to_nat rowCount)
                      (drop (Z.to_nat startRow) (records (concat chunks))))
  = true ->
  let recs := records (concat chunks) in
  let requested := take (Z.to_nat rowCount) (drop (Z.to_nat startRow) recs) in
  let anchor := recordStart recs (Z.to_nat startRow / Z.to_nat G * Z.to_nat G) in
  let lead := recordStart recs (Z.to_nat startRow) - anchor in
  let available := Z.of_nat (length (concat chunks)) - anchor in
  let bytesToRead := firstReadLength (startRow mod G) rowCount available in
  let got := Z.of_nat (linesStarted requested (bytesToRead - lead)) in
  let newBytesToRead := retryReadLength bytesToRead rowCount got available in
  exists r,
    getSlice decode (newSlicer (concat chunks) (buildIndex chunks G))
             startRow rowCount startCol colCount = Some r
    /\ resp_rowCount r
       = Z.of_nat (linesStarted requested (newBytesToRead - lead)).
Proof.
  intros HG Hsize Hsr Hrc Hrange Hne. cbv zeta.
  destruct (getSlice_rowCount_started chunks G startRow rowCount
              startCol colCount HG Hsize Hsr Hrc Hrange)
    as (r & Hr & Hcount).
  exists r. split; [done|]. rewrite Hcount. clear Hr Hcount.
  set (recs := records (concat chunks)) in *.
  set (requested := take (Z.to_nat rowCount) (drop (Z.to_nat startRow) recs))
    in *.
  assert (forall limit,
            Z.min rowCount
              (Z.of_nat (rowsStarted
                 (drop (Z.to_nat startRow) recs ++ [unterminated (concat chunks)])
                 limit))
            = Z.of_nat (linesStarted requested limit)) as Hsame.
  { intros limit. rewrite <- (Z2Nat.id rowCount) at 1 by done.
    apply rowsStarted_requested; [lia|done]. }
  by rewrite !Hsame.
Qed.
End Reached.

(** With records of at most 50 bytes, terminator included, 50 more bytes
    for every record that has not started reach the last record. *)
Lemma linesStarted_retry rs limit :
  Forall (fun r => (length r < 50)%nat) rs -> 0 < limit ->
  (0 < length rs)%nat ->
  Z.of_nat (length (terminated (take (length rs - 1) rs)))
  < limit + (Z.of_nat (length rs) - Z.of_nat (linesStarted rs limit)) * 50.
Proof.
  intros Hrs. revert limit.
  induction Hrs as [|r rs Hr Hrs IH]; intros limit Hlimit Hlen.
  - cbn [length] in Hlen. lia.
  - cbn [linesStarted length]. rewrite Nat.sub_succ, Nat.sub_0_r.
    destruct (Z.ltb_spec 0 limit); [|lia].
    destruct rs as [|r' rs]; [cbn; lia|].
    cbn [length take terminated flat_map] in *.
    fold (terminated (take (length rs) (r' :: rs))).
    rewrite Nat.sub_succ, Nat.sub_0_r in IH.
    rewrite !length_app. cbn [length].
    destruct (Z.lt_ge_cases 0 (limit - Z.of_nat (length r) - 1)) as [Hin|Hout].
    + specialize (IH _ Hin ltac:(lia)). lia.
    + rewrite (linesStarted_nonpos (r' :: rs)) by lia.
      pose proof (length_terminated_le (take (length rs) (r' :: rs)) 50
                    ltac:(by apply Forall_take)) as Hle.
      rewrite length_take in Hle. cbn [length] in Hle. lia.
Qed.

Lemma forallb_nonEmpty rs :
  Forall (fun r => r <> []) rs -> forallb nonEmpty rs = true.
Proof.
  induction 1 as [|r rs Hr _ IH]; [done|].
  cbn [forallb]. rewrite IH. by destruct r.
Qed.

Section RowCount.
Variable decode : list byte -> string.

(** When the requested records are at most 50 bytes long, terminator
    included, and the first read reaches the first of them, the one retry
    is enough. *)
Lemma getSlice_rowCount_retry_suffices
    chunks G startRow rowCount startCol colCount :
  1 <= G -> Z.of_nat (length (concat chunks)) < 2 ^ 64 ->
  0 <= startRow -> 0 <= rowCount ->
  startRow + rowCount <= Z.of_nat (length (records (concat chunks))) ->
  Forall (fun r => r <> [] /\ (length r < 50)%nat)
         (take (Z.to_nat rowCount)
               (drop (Z.to_nat startRow) (records (concat chunks)))) ->
  recordStart (records (concat chunks)) (Z.to_nat startRow)
    - recordStart (records (concat chunks))
                  (Z.to_nat startRow / Z.to_nat G * Z.to_nat G)
  < Z.max ((startRow mod G + rowCount) * 30) READ_BUFFER_SIZE ->
  exists r,
    getSlice decode (newSlicer (concat chunks) (buildIndex chunks G))
             startRow rowCount startCol colCount = Some r
    /\ resp_rowCount r = rowCount.
Proof.
  intros HG Hsize Hsr Hrc Hrange Hshort Hreach.
  assert (forallb nonEmpty (take (Z.to_nat rowCount)
            (drop (Z.to_nat startRow) (records (concat chunks)))) = true)
    as Hne.
  { eapply forallb_nonEmpty, Forall_impl; [exact Hshort|]. by intros ? [? _]. }
  destruct (getSlice_rowCount_reached decode chunks G startRow rowCount
              startCol colCount HG Hsize Hsr Hrc Hrange Hne)
    as (r & Hr & Hcount).
  exists r. split; [done|]. rewrite Hcount. clear Hr Hcount r Hne.
  destruct (splitLines_spec (concat chunks)) as (Hdata & _ & _).
  set (data := concat chunks) in *.
  set (recs := records data) in *. set (tail := unterminated data) in *.
  set (j0 := (Z.to_nat startRow / Z.to_nat G * Z.to_nat G)%nat) in *.
  set (requested := take (Z.to_nat rowCount) (drop (Z.to_nat startRow) recs))
    in *.
  assert (length requested = Z.to_nat rowCount) as Hl.
  { unfold requested. rewrite length_take, length_drop. lia. }
  destruct (Z.eq_dec rowCount 0) as [->|Hpos].
  { destruct requested; [done|cbn [length] in Hl; lia]. }
  set (lead := recordStart recs (Z.to_nat startRow) - recordStart recs j0) in *.
  set (available := Z.of_nat (length data) - recordStart recs j0).
  assert (lead + Z.of_nat (length (terminated requested)) <= available)
    as Hroom.
  { pose proof (recordStart_le recs tail (Z.to_nat startRow + Z.to_nat rowCount))
      as Hle.
    rewrite <- Hdata, recordStart_add in Hle. fold requested in Hle.
    unfold lead, available. lia. }
  pose proof (terminated_last_lt requested ltac:(lia)) as Hlast.
  unfold firstReadLength, retryReadLength.
  set (len := Z.min (Z.max ((startRow mod G + rowCount) * 30) READ_BUFFER_SIZE)
                    available) in *.
  assert (0 < len - lead) as Hin by (unfold len; lia).
  pose proof (linesStarted_retry requested (len - lead)
                ltac:(eapply Forall_impl; [exact Hshort|]; by intros ? [_ ?])
                Hin ltac:(lia)) as Hretry.
  match goal with
  | |- Z.of_nat ?x = _ => enough (x = length requested) as -> by lia
  end.
  apply linesStarted_all. right.
  lia.
Qed.
End RowCount.


Section SmallGranularity.
Variable decode : list byte -> string.

(** With a granularity of at most 655 and records of at most 50 bytes,
    terminator included, the records to skip always lie in the first
    read. *)
Lemma getSlice_rowCount_small_granularity
    chunks G startRow rowCount startCol colCount :
  1 <= G <= 655 -> Z.of_nat (length (concat chunks)) < 2 ^ 64 ->
  0 <= startRow -> 0 <= rowCount ->
  startRow + rowCount <= Z.of_nat (length (records (concat chunks))) ->
  Forall (fun r => r <> [] /\ (length r < 50)%nat)
         (records (concat chunks)) ->
  exists r,
    getSlice decode (newSlicer (concat chunks) (buildIndex chunks G))
             startRow rowCount startCol colCount = Some r
    /\ resp_rowCount r = rowCount.
Proof.
  intros HG Hsize Hsr Hrc Hrange Hshort.
  apply getSlice_rowCount_retry_suffices; try done; [lia| |].
  { by apply Forall_take, Forall_drop. }
  set (recs := records (concat chunks)) in *.
  assert (exists j0 : nat,
            (j0 <= Z.to_nat startRow)%nat
            /\ (Z.to_nat startRow - j0 < Z.to_nat G)%nat
            /\ (Z.to_nat startRow / Z.to_nat G * Z.to_nat G)%nat = j0)
    as (j0 & Hj0 & Hnear & ->).
  { eexists. split; [|split; [|reflexivity]].
    - pose proof (Nat.div_mod_eq (Z.to_nat startRow) (Z.to_nat G)). lia.
    - pose proof (Nat.div_mod_eq (Z.to_nat startRow) (Z.to_nat G)).
      pose proof (Nat.mod_upper_bound (Z.to_nat startRow) (Z.to_nat G)).
      lia. }
  replace (Z.to_nat startRow) with (j0 + (Z.to_nat startRow - j0))%nat at 1
    by lia.
  rewrite recordStart_add.
  set (m := (Z.to_nat startRow - j0)%nat) in *.
  pose proof (length_terminated_le (take m (drop j0 recs)) 50) as Hlen.
  rewrite length_take, length_drop in Hlen.
  assert (Forall (fun r => (length r < 50)%nat) (take m (drop j0 recs)))
    as Hwin.
  { apply Forall_take, Forall_drop.
    eapply Forall_impl; [exact Hshort|]. by intros r [_ ?]. }
  specialize (Hlen Hwin). unfold READ_BUFFER_SIZE. lia.
Qed.
End SmallGranularity.

Section Claims.
Variable decode : list byte -> string.

(** When every record is at most 30 bytes long, terminator included, the
    records to skip and to return always fit the first read. *)
Lemma getSlice_rowCount_short_records
    chunks G startRow rowCount startCol colCount :
  1 <= G -> Z.of_nat (length (concat chunks)) < 2 ^ 64 ->
  0 <= startRow -> 0 <= rowCount ->
  startRow + rowCount <= Z.of_nat (length (records (concat chunks))) ->
  Forall (fun r => r <> [] /\ (length r < 30)%nat)
         (records (concat chunks)) ->
  exists r,
    getSlice decode (newSlicer (concat chunks) (buildIndex chunks G))
             startRow rowCount startCol colCount = Some r
    /\ resp_rowCount r = rowCount.
Proof.
  intros HG Hsize Hsr Hrc Hrange Hshort.
  apply getSlice_rowCount_fit; try done.
  { eapply Forall_impl; [exact Hshort|]. by intros r [? _]. }
  set (recs := records (concat chunks)) in *.
  assert (exists j0 : nat,
            (j0 <= Z.to_nat startRow)%nat
            /\ startRow / G * G = Z.of_nat j0
            /\ (Z.to_nat startRow / Z.to_nat G * Z.to_nat G)%nat = j0)
    as (j0 & Hj0 & Hanchor & ->).
  { eexists. split; [|split; [|reflexivity]].
    - pose proof (Nat.div_mod_eq (Z.to_nat startRow) (Z.to_nat G)). lia.
    - by rewrite Nat2Z.inj_mul, Nat2Z.inj_div, !Z2Nat.id by lia. }
  rewrite Hanchor.
  replace (Z.to_nat (startRow + rowCount))
    with (j0 + (Z.to_nat startRow - j0 + Z.to_nat rowCount))%nat by lia.
  rewrite recordStart_add.
  set (m := (Z.to_nat startRow - j0 + Z.to_nat rowCount)%nat).
  pose proof (length_terminated_le (take m (drop j0 recs)) 30) as Hlen.
  rewrite length_take, length_drop in Hlen.
  assert (Forall (fun r => (length r < 30)%nat) (take m (drop j0 recs)))
    as Hwin.
  { apply Forall_take, Forall_drop.
    eapply Forall_impl; [exact Hshort|]. by intros r [_ ?]. }
  specialize (Hlen Hwin). unfold m in *. lia.
Qed.

(** ** C2: the row count of a slice *)


(** ** C10: the response is consistent *)

(** C10: for every data file (below [2^64] bytes), its index built with
    a granularity [G >= 1], and every call of [getSlice] with four
    non-negative arguments, [getSlice] returns a response in which
    [cellsByRow] has [rowCount] rows and every row has [colCount] cells,
    [rowCount] and [colCount] being the fields of the response. *)
Theorem getSlice_consistent chunks G startRow rowCount startCol colCount :
  1 <= G -> Z.of_nat (length (concat chunks)) < 2 ^ 64 ->
  0 <= startRow -> 0 <= rowCount -> 0 <= startCol -> 0 <= colCount ->
  exists r,
    getSlice decode (newSlicer (concat chunks) (buildIndex chunks G))
             startRow rowCount startCol colCount = Some r
    /\ Z.of_nat (length (resp_cellsByRow r)) = resp_rowCount r
    /\ Forall (fun row => Z.of_nat (length row) = resp_colCount r)
              (resp_cellsByRow r).
Proof.
  intros HG Hsize _ _ _ Hcc.
  destruct (getSlice_returns decode chunks G startRow rowCount startCol
              colCount HG Hsize Hcc) as [r Hr].
  exists r. split; [done|]. by eapply getSlice_consistent_any.
Qed.
End Claims.


(** The same happens, on a file of any size, with empty records, which
    [buildIndex] counts and [parseRows] skips. *)
Lemma getSlice_blank_lines_no_row :
  totalRows (buildIndex [blankFile] 1) = 2
  /\ resp_rowCount
       <$> getSlice decodeAscii
                    (newSlicer blankFile (buildIndex [blankFile] 1)) 0 1 0 2
     = Some 0.
Proof. split; reflexivity. Qed.

(** The sizes of the two files of 1000 records. *)
Example wideFile_size : Z.of_nat (length wideFile) = 40000.
Proof. vm_compute. reflexivity. Qed.
Example widerFile_size : Z.of_nat (length widerFile) = 50000.
Proof. vm_compute. reflexivity. Qed.


(** On [wideFile] the first read of 32768 bytes reaches 820 of the 1000
    requested records; the retry reads the 40000 bytes of the file, which
    hold the first byte of the last record, and the response has the 1000
    rows. *)
Example getSlice_wideFile_retry :
  firstReadLength 0 1000 40000 = 32768
  /\ Z.of_nat (rowsStarted (records wideFile ++ [unterminated wideFile]) 32768)
     = 820
  /\ retryReadLength 32768 1000 820 40000 = 40000
  /\ forallb nonEmpty (records wideFile) = true
  /\ recordStart (records wideFile) 999 = 39960
  /\ resp_rowCount
       <$> getSlice decodeAscii (newSlicer wideFile (buildIndex [wideFile] 100))
                    0 1000 0 2
     = Some 1000.
Proof. repeat split; vm_compute; reflexivity. Qed.

(** An empty record among the requested ones gives no row; a record
    after the requested ones takes its place when it starts in the bytes
    read. *)
Example getSlice_blank_line_replaced :
  resp_cellsByRow
    <$> getSlice decodeAscii
          (newSlicer (bytes "a;1" ++ [NEWLINE; NEWLINE] ++ bytes "b;2" ++ [NEWLINE])
             (buildIndex [bytes "a;1" ++ [NEWLINE; NEWLINE] ++ bytes "b;2" ++ [NEWLINE]] 1))
          0 2 0 2
  = Some [ ["a"; "1"]; ["b"; "2"] ]%string.
Proof. reflexivity. Qed.

(** With the default granularity 1000 the rows to skip can take more than
    the two reads: on [widerFile], whose records are 50 bytes long, the
    999 records before row 999 take 49950 bytes; [getSlice(999, 1, 0, 2)]
    reads 32768 bytes and then 32818, and returns no row. *)
Example getSlice_widerFile_no_row :
  totalRows (buildIndex [widerFile] 1000) = 1000
  /\ resp_rowCount
       <$> getSlice decodeAscii
                    (newSlicer widerFile (buildIndex [widerFile] 1000))
                    999 1 0 2
     = Some 0.
Proof. split; vm_compute; reflexivity. Qed.

Lemma getSlice_consistent_witness :
  exists r,
    getSlice decodeAscii (newSlicer (concat [seedFile])
                                    (buildIndex [seedFile] 2))
             0 3 0 2 = Some r
    /\ Z.of_nat (length (resp_cellsByRow r)) = resp_rowCount r
    /\ Forall (fun row => Z.of_nat (length row) = resp_colCount r)
              (resp_cellsByRow r).
Proof.
  apply (getSlice_consistent decodeAscii [seedFile] 2 0 3 0 2).
  - lia.
  - vm_compute. reflexivity.
  - lia.
  - lia.
  - lia.
  - lia.
Defined.

(** ** The seed scenarios of the specification, on the model *)

Example seedFile_size : length seedFile = 69%nat.
Proof. reflexivity. Qed.

Example seed_first_three_rows :
  getSlice decodeAscii seedSlicer 0 3 0 2
  = Some (mkSliceResponse 0 3 0 2 ["A"; "B"]%string
            [ ["Hamburg"; "12.0"]; ["Bulawayo"; "8.9"];
              ["Palembang"; "38.8"] ]%string).
Proof. reflexivity. Qed.

Example seed_rows_near_the_end :
  getSlice decodeAscii seedSlicer 3 10 0 2
  = Some (mkSliceResponse 3 2 0 2 ["A"; "B"]%string
            [ ["St. John's"; "15.2"]; ["Cracow"; "12.6"] ]%string).
Proof. reflexivity. Qed.

Example seed_one_cell :
  getSlice decodeAscii seedSlicer 4 1 1 1
  = Some (mkSliceResponse 4 1 1 1 ["B"]%string [["12.6"]%string]).
Proof. reflexivity. Qed.

Example seed_viewport :
  computeSliceParams (mkViewport 1000 480 2 5 100 24 0 0 5 2)
  = Some (mkSliceParams 0 5 0 2).
Proof. reflexivity. Qed.

Example splitLines_seed :
  records seedFile = seedRecords /\ unterminated seedFile = [].
Proof. split; reflexivity. Qed.

(** * Further properties of the code *)

(** X1: the index does not depend on how the stream cuts the file into
    chunks: two chunk sequences that carry the same bytes give the same
    index. *)
Theorem buildIndex_any_chunking chunks1 chunks2 G :
  concat chunks1 = concat chunks2 ->
  buildIndex chunks1 G = buildIndex chunks2 G.
Proof.
  intros Hsame. rewrite (buildIndex_chunks chunks1), (buildIndex_chunks chunks2).
  by rewrite Hsame.
Qed.

Lemma buildIndex_any_chunking_witness :
  buildIndex [take 13 seedFile; drop 13 seedFile] 2
  = buildIndex [take 40 seedFile; take 1 (drop 40 seedFile);
                drop 41 seedFile] 2.
Proof.
  apply (buildIndex_any_chunking
           [take 13 seedFile; drop 13 seedFile]
           [take 40 seedFile; take 1 (drop 40 seedFile); drop 41 seedFile]).
  reflexivity.
Defined.

Lemma scanChunk_totalRows G data pos st :
  scan_totalRows (scanChunk G 0 data pos st)
  = scan_totalRows st + Z.of_nat (countNewlines data).
Proof.
  revert pos st. induction data as [|b rest IH]; intros pos st.
  - unfold countNewlines. simpl. lia.
  - cbn [scanChunk]. rewrite IH. unfold scanByte, countNewlines.
    cbn [List.filter]. destruct (is_newline b); [|done].
    destruct (G <=? _); cbn [scan_totalRows length]; lia.
Qed.

(** X2: [totalRows] of the built index, and so [getTotalRows] of a slicer
    that holds it, is the number of line-terminator bytes of the file,
    for every granularity. *)
Theorem buildIndex_totalRows_counts_newlines chunks G :
  totalRows (buildIndex chunks G) = Z.of_nat (countNewlines (concat chunks))
  /\ getTotalRows (newSlicer (concat chunks) (buildIndex chunks G))
     = Z.of_nat (countNewlines (concat chunks)).
Proof.
  assert (totalRows (buildIndex chunks G)
          = Z.of_nat (countNewlines (concat chunks))) as Hrows.
  { unfold buildIndex. cbn [totalRows].
    rewrite scanStream_flat, scanChunk_totalRows. cbn [scan_totalRows]. lia. }
  split; [done|]. unfold getTotalRows, newSlicer. by cbn [index].
Qed.

(** X3: bytes after the last line terminator change nothing in the index:
    a last record without terminator is neither counted nor anchored. *)
Theorem buildIndex_ignores_unterminated_tail chunks chunks' tail G :
  concat chunks' = concat chunks ++ tail -> noNewline tail ->
  buildIndex chunks' G = buildIndex chunks G.
Proof.
  intros Hmore Htail. unfold buildIndex. rewrite !scanStream_flat.
  rewrite Hmore, scanChunk_app. by rewrite scanChunk_noNewline.
Qed.

Lemma buildIndex_ignores_unterminated_tail_witness :
  buildIndex [seedFile; bytes "Oslo;3.1"] 2 = buildIndex [seedFile] 2.
Proof.
  apply (buildIndex_ignores_unterminated_tail
           [seedFile] [seedFile; bytes "Oslo;3.1"] (bytes "Oslo;3.1") 2).
  - reflexivity.
  - repeat constructor.
Defined.


Lemma scanChunk_aligned G prefix suffix st :
  aligned (prefix ++ suffix) (scan_offsets st) ->
  aligned (prefix ++ suffix)
          (scan_offsets (scanChunk G 0 suffix (Z.of_nat (length prefix)) st)).
Proof.
  revert prefix st. induction suffix as [|b rest IH]; intros prefix st Hst.
  - done.
  - cbn [scanChunk].
    replace (Z.of_nat (length prefix) + 1)
      with (Z.of_nat (length (prefix ++ [b])))
      by (rewrite length_app; cbn [length]; lia).
    replace (prefix ++ b :: rest) with ((prefix ++ [b]) ++ rest) in *
      by (by rewrite <- app_assoc).
    apply IH. unfold scanByte.
    destruct (is_newline b) eqn:Hb; [|done].
    destruct (G <=? _); cbn [scan_offsets]; [|done].
    intros k a [Hk|[_ Hk]]%lookup_app_Some; [by apply (Hst k)|].
    apply list_lookup_singleton_Some in Hk as [_ <-]. right.
    split; [lia|].
    replace (Z.to_nat (0 + Z.of_nat (length prefix) + 1 - 1))
      with (length prefix) by lia.
    apply Byte.byte_dec_bl in Hb as ->.
    rewrite <- app_assoc. cbn [app].
    by rewrite list_lookup_middle.
Qed.

(** X4: every entry of [offsets] is 0 or the position just after a
    line-terminator byte of the file, for every granularity. *)
Theorem buildIndex_offsets_aligned chunks G k a :
  Z.of_nat (length (concat chunks)) < 2 ^ 64 ->
  offsets (buildIndex chunks G) !! k = Some a ->
  a = 0 \/ (1 <= a /\ concat chunks !! Z.to_nat (a - 1) = Some NEWLINE).
Proof.
  intros Hsize. rewrite buildIndex_offsets by done.
  rewrite scanStream_flat.
  pose proof (scanChunk_aligned G [] (concat chunks) (mkScan [0] 0 0)) as Hal.
  cbn [app length] in Hal. apply Hal.
  intros j b [_ <-]%list_lookup_singleton_Some. by left.
Qed.

Lemma buildIndex_offsets_aligned_witness :
  26 = 0 \/ (1 <= 26 /\ concat [seedFile] !! Z.to_nat (26 - 1) = Some NEWLINE).
Proof.
  apply (buildIndex_offsets_aligned [seedFile] 2 1%nat 26).
  - vm_compute. reflexivity.
  - reflexivity.
Defined.

(** X5: for a granularity [G >= 1] the index has
    [floor (totalRows / G) + 1] anchors, the first of which is 0. *)
Theorem buildIndex_offsets_length chunks G :
  1 <= G -> Z.of_nat (length (concat chunks)) < 2 ^ 64 ->
  Z.of_nat (length (offsets (buildIndex chunks G)))
  = totalRows (buildIndex chunks G) / G + 1
  /\ offsets (buildIndex chunks G) !! 0%nat = Some 0.
Proof.
  intros HG Hsize. rewrite buildIndex_records by done.
  cbn [offsets totalRows]. split.
  - rewrite length_map, length_seq.
    rewrite <- (Z2Nat.id G) at 2 by lia. rewrite <- Nat2Z.inj_div. lia.
  - reflexivity.
Qed.

Lemma buildIndex_offsets_length_witness :
  Z.of_nat (length (offsets (buildIndex [seedFile] 2)))
  = totalRows (buildIndex [seedFile] 2) / 2 + 1
  /\ offsets (buildIndex [seedFile] 2) !! 0%nat = Some 0.
Proof.
  apply (buildIndex_offsets_length [seedFile] 2).
  - lia.
  - vm_compute. reflexivity.
Defined.

(** X6: for a granularity [G >= 1] and every record [r] of the file, the
    anchor [offsets[floor (r / G)]] exists, and skipping [r mod G] line
    terminators from it, as the first loop of [parseRows] does, ends at
    the first byte of record [r]. *)
Theorem buildIndex_seek chunks G r rec :
  1 <= G -> Z.of_nat (length (concat chunks)) < 2 ^ 64 ->
  records (concat chunks) !! r = Some rec ->
  exists a rest,
    typedArray_get (offsets (buildIndex chunks G))
                   (Math_floor_div (Z.of_nat r) G) = Some a
    /\ skipLoop (drop (Z.to_nat a) (concat chunks)) 0 (Z.of_nat r mod G)
       = rec ++ NEWLINE :: rest.
Proof.
  intros HG Hsize Hrec. rewrite buildIndex_records by done. cbn [offsets].
  destruct (splitLines_spec (concat chunks)) as (Hdata & Hrecs & Htail).
  set (data := concat chunks) in *. set (recs := records data) in *.
  pose proof (lookup_lt_Some _ _ _ Hrec) as Hr.
  rewrite anchor_lookup by lia. rewrite Nat2Z.id.
  assert (exists j0 : nat,
            (r / Z.to_nat G * Z.to_nat G)%nat = j0 /\ (j0 <= r)%nat
            /\ Z.of_nat r mod G = Z.of_nat (r - j0)) as (j0 & -> & Hj0 & Hmod).
  { eexists. split; [reflexivity|].
    pose proof (Nat.div_mod_eq r (Z.to_nat G)) as Hdm. split; [lia|].
    rewrite <- (Z2Nat.id G) at 1 by lia. rewrite <- Nat2Z.inj_mod. lia. }
  eexists. eexists. split; [reflexivity|].
  rewrite Hdata at 1. rewrite drop_recordStart.
  assert (drop j0 recs
          = take (r - j0) (drop j0 recs) ++ rec :: drop (S r) recs) as ->.
  { rewrite <- (take_drop (r - j0) (drop j0 recs)) at 1.
    rewrite drop_drop. replace (j0 + (r - j0))%nat with r by lia.
    by rewrite (drop_S _ _ _ Hrec). }
  rewrite terminated_app. cbn [terminated flat_map].
  fold (terminated (drop (S r) recs)). rewrite <- !app_assoc. cbn [app].
  pose proof (skipLoop_records (take (r - j0) (drop j0 recs))
                (rec ++ NEWLINE :: terminated (drop (S r) recs)
                  ++ unterminated data) 0) as Hskip.
  rewrite length_take, length_drop, Z.add_0_l in Hskip.
  replace ((r - j0) `min` (length recs - j0))%nat with (r - j0)%nat
    in Hskip by lia.
  rewrite Hmod, Hskip by (apply Forall_take, Forall_drop; exact Hrecs).
  reflexivity.
Qed.

Lemma buildIndex_seek_witness :
  exists a rest,
    typedArray_get (offsets (buildIndex [seedFile] 2))
                   (Math_floor_div (Z.of_nat 3) 2) = Some a
    /\ skipLoop (drop (Z.to_nat a) (concat [seedFile])) 0 (Z.of_nat 3 mod 2)
       = bytes "St. John's;15.2" ++ NEWLINE :: rest.
Proof.
  apply (buildIndex_seek [seedFile] 2 3 (bytes "St. John's;15.2")).
  - lia.
  - vm_compute. reflexivity.
  - reflexivity.
Defined.


Lemma byte_to_Z_range b : 0 <= byte_to_Z b < 256.
Proof.
  unfold byte_to_Z. pose proof (Byte.to_N_bounded b). lia.
Qed.

Lemma byte_of_Z_to_Z b : byte_of_Z (byte_to_Z b) = b.
Proof.
  unfold byte_of_Z. rewrite Z.mod_small by apply byte_to_Z_range.
  unfold byte_to_Z. by rewrite N2Z.id, Byte.of_to_N.
Qed.

Lemma le_value_range l :
  0 <= le_value l < 256 ^ Z.of_nat (length l).
Proof.
  induction l as [|b l IH]; [simpl; lia|].
  cbn [le_value length]. rewrite Nat2Z.inj_succ, Z.pow_succ_r by lia.
  pose proof (byte_to_Z_range b). lia.
Qed.

Lemma byte_of_Z_low b v : byte_of_Z (byte_to_Z b + 256 * v) = b.
Proof.
  pose proof (byte_to_Z_range b) as Hb. unfold byte_of_Z.
  assert ((byte_to_Z b + 256 * v) mod 256 = byte_to_Z b) as ->.
  { replace (byte_to_Z b + 256 * v) with (byte_to_Z b + v * 256) by lia.
    rewrite Z.mod_add by lia. by apply Z.mod_small. }
  unfold byte_to_Z. by rewrite N2Z.id, Byte.of_to_N.
Qed.

Lemma le_bytes_le_value l :
  le_bytes (length l) (le_value l) = l.
Proof.
  induction l as [|b l IH]; [done|].
  cbn [length le_value le_bytes]. pose proof (byte_to_Z_range b) as Hb.
  rewrite byte_of_Z_low. f_equal.
  replace ((byte_to_Z b + 256 * le_value l) / 256) with (le_value l); [done|].
  apply (Z.div_unique _ _ _ (byte_to_Z b)); lia.
Qed.

Lemma setBigUint64_le_value l :
  length l = 8%nat -> setBigUint64 (le_value l) = l.
Proof.
  intros Hl. unfold setBigUint64. pose proof (le_value_range l) as Hrange.
  rewrite Hl in Hrange. change (256 ^ Z.of_nat 8) with (2 ^ 64) in Hrange.
  rewrite Z.mod_small by done. rewrite <- Hl at 1. apply le_bytes_le_value.
Qed.

Lemma BigUint64Array_buffer_elements n buffer :
  length buffer = (8 * n)%nat ->
  BigUint64Array_buffer (u64_elements n buffer) = buffer.
Proof.
  revert buffer. induction n as [|n IH]; intros buffer Hlen.
  - by destruct buffer.
  - cbn [u64_elements BigUint64Array_buffer flat_map].
    fold (BigUint64Array_buffer (u64_elements n (drop 8 buffer))).
    rewrite IH by (rewrite length_drop; lia).
    assert (length (take 8 buffer) = 8%nat) as Htake
      by (rewrite length_take; lia).
    rewrite <- Htake at 1. rewrite le_bytes_le_value. apply take_drop.
Qed.

(** X8: when [loadIndex] returns, for a file, an index whose [totalRows]
    and [granularity] are below [2^53], saving that index writes the bytes
    of that file again.  (Below [2^53] the [Number(...)] of a header value
    is the value itself; above, the source rounds it to a double, and the
    bytes written can differ from the bytes read.) *)
Theorem loadIndex_saveIndex path path' w w1 idx buffer :
  files w !! path = Some buffer ->
  loadIndex path w = Returned (Some idx) w1 ->
  totalRows idx < 2 ^ 53 -> granularity idx < 2 ^ 53 ->
  exists w2,
    saveIndex idx path' w1 = Returned tt w2
    /\ files w2 !! path' = Some buffer.
Proof.
  intros Hfile Hload _ _. rewrite saveIndex_outcome. eexists.
  split; [reflexivity|]. cbn [files]. rewrite lookup_insert_eq. f_equal.
  rewrite (loadIndex_present _ _ _ Hfile) in Hload.
  destruct (Nat.ltb_spec (length buffer) 16) as [|Hlong]; [done|].
  destruct (Nat.eqb_spec (length (drop 16 buffer) mod 8) 0) as [Hmod|];
    [|done].
  injection Hload as <- _. unfold indexBytes. cbn [totalRows granularity offsets].
  rewrite !setBigUint64_le_value
    by (rewrite length_take, ?length_drop; lia).
  rewrite BigUint64Array_buffer_elements.
  - change 16%nat with (8 + 8)%nat. by rewrite <- drop_drop, !take_drop.
  - pose proof (Nat.div_mod_eq (length (drop 16 buffer)) 8) as Hdm.
    rewrite Hmod, Nat.add_0_r in Hdm. exact Hdm.
Qed.

Lemma countNewlines_le data : (countNewlines data <= length data)%nat.
Proof. unfold countNewlines. apply filter_length_le. Qed.

Lemma le_value_setBigUint64_wrap v :
  le_value (setBigUint64 v) = v mod 2 ^ 64.
Proof.
  unfold setBigUint64. rewrite le_value_le_bytes.
  change (256 ^ Z.of_nat 8) with (2 ^ 64). apply Z.mod_mod. lia.
Qed.

Lemma u64_elements_buffer_wrap a :
  u64_elements (length a) (BigUint64Array_buffer a)
  = map (fun o => o mod 2 ^ 64) a.
Proof.
  induction a as [|o a IH]; [done|].
  cbn [length u64_elements BigUint64Array_buffer flat_map map].
  rewrite take_app_length', drop_app_length' by (by rewrite length_le_bytes).
  fold (BigUint64Array_buffer a). rewrite IH, le_value_le_bytes.
  reflexivity.
Qed.

Lemma length_indexBytes idx :
  length (indexBytes idx) = (16 + 8 * length (offsets idx))%nat.
Proof.
  unfold indexBytes, setBigUint64.
  rewrite !length_app, !length_le_bytes, length_BigUint64Array_buffer. lia.
Qed.

(** What [loadIndex] reads back from the bytes of an index. *)
Lemma loadIndex_indexBytes idx path w :
  files w !! path = Some (indexBytes idx) ->
  loadIndex path w
  = Returned (Some (mkFileIndex (totalRows idx mod 2 ^ 64)
                                (map (fun o => o mod 2 ^ 64) (offsets idx))
                                (granularity idx mod 2 ^ 64)))
             (logged w [LogLoading; LogLoaded]).
Proof.
  intros Hfile. rewrite (loadIndex_present _ _ _ Hfile), length_indexBytes.
  destruct (Nat.ltb_spec (16 + 8 * length (offsets idx)) 16) as [?|_]; [lia|].
  assert (length (setBigUint64 (totalRows idx)) = 8%nat) as Hl1
    by apply length_le_bytes.
  assert (length (setBigUint64 (granularity idx)) = 8%nat) as Hl2
    by apply length_le_bytes.
  assert (drop 16 (indexBytes idx) = BigUint64Array_buffer (offsets idx))
    as ->.
  { unfold indexBytes. rewrite app_assoc. apply drop_app_length'.
    rewrite length_app. lia. }
  assert (take 8 (indexBytes idx) = setBigUint64 (totalRows idx)) as ->.
  { unfold indexBytes. by apply take_app_length'. }
  assert (take 8 (drop 8 (indexBytes idx)) = setBigUint64 (granularity idx))
    as ->.
  { unfold indexBytes. rewrite drop_app_length' by done.
    by apply take_app_length'. }
  rewrite length_BigUint64Array_buffer.
  replace (8 * length (offsets idx))%nat with (length (offsets idx) * 8)%nat
    by lia.
  rewrite Nat.Div0.mod_mul, Nat.div_mul by lia. cbn [Nat.eqb].
  by rewrite !le_value_setBigUint64_wrap, u64_elements_buffer_wrap.
Qed.

(** X7: the codec stores every field in 64 bits.  For an index whose
    [totalRows] and [granularity], taken modulo [2^64], are below [2^53],
    what [loadIndex] reads after [saveIndex] is the saved index with
    [totalRows], [granularity] and every offset taken modulo [2^64]: a
    count of [2^64 + 4096] comes back as 4096.  (Below [2^53] the
    [Number(...)] of a stored header value is the value itself; above, the
    source rounds it to a double.) *)
Theorem saveIndex_loadIndex_modulo idx path w :
  totalRows idx mod 2 ^ 64 < 2 ^ 53 ->
  granularity idx mod 2 ^ 64 < 2 ^ 53 ->
  exists w1 w2,
    saveIndex idx path w = Returned tt w1
    /\ loadIndex path w1
       = Returned (Some (mkFileIndex (totalRows idx mod 2 ^ 64)
                                     (map (fun o => o mod 2 ^ 64) (offsets idx))
                                     (granularity idx mod 2 ^ 64))) w2.
Proof.
  intros _ _.
  rewrite saveIndex_outcome. eexists. eexists. split; [reflexivity|].
  apply loadIndex_indexBytes. cbn [files]. apply lookup_insert_eq.
Qed.

Lemma saveIndex_loadIndex_modulo_witness :
  let idx := mkFileIndex (2 ^ 64 + 4096) [0; 26; 57] 2 in
  exists w1 w2,
    saveIndex idx "measurements.idx" (mkWorld ∅ []) = Returned tt w1
    /\ loadIndex "measurements.idx" w1
       = Returned (Some (mkFileIndex (totalRows idx mod 2 ^ 64)
                                     (map (fun o => o mod 2 ^ 64) (offsets idx))
                                     (granularity idx mod 2 ^ 64))) w2.
Proof.
  intros idx.
  apply (saveIndex_loadIndex_modulo idx "measurements.idx" (mkWorld ∅ [])).
  - reflexivity.
  - reflexivity.
Defined.

(** X9: [saveIndex] writes [16 + 8 * offsets.length] bytes to its path and
    leaves every other file as it was. *)
Theorem saveIndex_writes_one_file idx path w :
  exists w1,
    saveIndex idx path w = Returned tt w1
    /\ (exists buffer,
          files w1 !! path = Some buffer
          /\ length buffer = (16 + 8 * length (offsets idx))%nat)
    /\ forall other, other <> path -> files w1 !! other = files w !! other.
Proof.
  rewrite saveIndex_outcome. eexists. split; [reflexivity|]. cbn [files].
  split.
  - exists (indexBytes idx). split; [apply lookup_insert_eq|].
    apply length_indexBytes.
  - intros other Hother. by apply lookup_insert_ne.
Qed.

Section Startup.
Variable stream : list byte -> list (list byte).

Lemma buildIndexIO_present config w data :
  files w !! filePath config = Some data ->
  buildIndexIO stream config w
  = Returned (buildIndex (stream data) (indexGranularity config))
             (logged w [LogBuilding; LogCompleted]).
Proof.
  intros Hdata. unfold buildIndexIO, mbind, IO_bind, log, Bun_arrayBuffer,
    mret, IO_ret, logged.
  cbn [files console]. rewrite Hdata. cbn [files console].
  by rewrite <- app_assoc.
Qed.

(** X10: without an index path ([undefined] or the empty string)
    [getOrBuildIndex] builds the index from the data file and writes no
    file. *)
Theorem getOrBuildIndex_without_indexPath config w data :
  truthy (indexPath config) = None ->
  files w !! filePath config = Some data ->
  exists w1,
    getOrBuildIndex stream config w
    = Returned (buildIndex (stream data) (indexGranularity config)) w1
    /\ files w1 = files w
    /\ console w1 = console w ++ [LogBuilding; LogCompleted].
Proof.
  intros Hpath Hdata. unfold getOrBuildIndex, rebuild. rewrite Hpath.
  unfold mbind, IO_bind. rewrite (buildIndexIO_present _ _ _ Hdata).
  eexists. split; [reflexivity|]. done.
Qed.

Lemma rebuild_saves config w data path :
  truthy (indexPath config) = Some path ->
  files w !! filePath config = Some data ->
  rebuild stream config w
  = Returned (buildIndex (stream data) (indexGranularity config))
      (mkWorld
         (<[path := indexBytes (buildIndex (stream data)
                                           (indexGranularity config))]>
            (files w))
         (console w ++ [LogBuilding; LogCompleted; LogSaving; LogSaved])).
Proof.
  intros Hpath Hdata. unfold rebuild. rewrite Hpath.
  unfold mbind, IO_bind. rewrite (buildIndexIO_present _ _ _ Hdata).
  rewrite saveIndex_outcome. unfold mret, IO_ret, logged. cbn [files console].
  by rewrite <- app_assoc.
Qed.

(** X11: a cold start (no index file yet) builds the index and saves it;
    the next start, on the files the first one left, returns the same
    index and leaves the files as they are, whether the freshness check
    accepts the cached index or rebuilds it. *)
Theorem getOrBuildIndex_twice config w data path :
  truthy (indexPath config) = Some path ->
  path <> filePath config ->
  files w !! path = None ->
  files w !! filePath config = Some data ->
  concat (stream data) = data ->
  Z.of_nat (length data) < 2 ^ 64 ->
  0 <= indexGranularity config < 2 ^ 64 ->
  exists w1 w2,
    getOrBuildIndex stream config w
    = Returned (buildIndex (stream data) (indexGranularity config)) w1
    /\ files w1
       = <[path := indexBytes (buildIndex (stream data)
                                          (indexGranularity config))]>
           (files w)
    /\ getOrBuildIndex stream config w1
       = Returned (buildIndex (stream data) (indexGranularity config)) w2
    /\ files w2 = files w1.
Proof.
  intros Hpath Hne Hcold Hdata Hstream Hsize HG.
  set (idx := buildIndex (stream data) (indexGranularity config)).
  assert (getOrBuildIndex stream config w
          = rebuild stream config (logged w [LogNoCache])) as Hfirst.
  { unfold getOrBuildIndex. rewrite Hpath. unfold mbind at 1, IO_bind at 1.
    by rewrite (loadIndex_absent _ _ Hcold). }
  rewrite Hfirst, (rebuild_saves _ _ data path) by done.
  fold idx. set (w1 := mkWorld _ _).
  cut (exists w2, getOrBuildIndex stream config w1 = Returned idx w2
                  /\ files w2 = files w1).
  { intros (w2 & Hsecond & Hfiles). exists w1, w2. by repeat split. }
  assert (files w1 !! path = Some (indexBytes idx)) as Hcached
    by apply lookup_insert_eq.
  assert (files w1 !! filePath config = Some data) as Hdata1.
  { unfold w1. cbn [files logged]. by rewrite lookup_insert_ne. }
  assert (mkFileIndex (totalRows idx mod 2 ^ 64)
                      (map (fun o => o mod 2 ^ 64) (offsets idx))
                      (granularity idx mod 2 ^ 64) = idx) as Hsame.
  { assert (Z.of_nat (length (concat (stream data))) < 2 ^ 64) as Hsize'
      by (by rewrite Hstream).
    assert (0 <= totalRows idx < 2 ^ 64) as Hrows.
    { unfold idx, buildIndex. cbn [totalRows].
      rewrite scanStream_flat, scanChunk_totalRows. cbn [scan_totalRows].
      pose proof (countNewlines_le (concat (stream data))). lia. }
    pose proof (buildIndex_offsets (stream data) (indexGranularity config)
                  Hsize') as Hoffs.
    pose proof (buildIndex_anchored (stream data) (indexGranularity config))
      as Hanch.
    fold idx in Hoffs. rewrite <- Hoffs in Hanch.
    fold (BigUint64Array_from (offsets idx)).
    rewrite (BigUint64Array_from_id _ _ Hanch Hsize').
    rewrite (Z.mod_small (totalRows idx)) by done.
    unfold idx at 2. unfold buildIndex. cbn [granularity].
    rewrite Z.mod_small by done. reflexivity. }
  unfold getOrBuildIndex. rewrite Hpath. unfold mbind at 1, IO_bind at 1.
  rewrite (loadIndex_indexBytes idx path w1 Hcached), Hsame.
  unfold mbind at 1, IO_bind at 1, Bun_size. cbn [logged files].
  destruct (_ && _); [by eexists|].
  unfold mbind at 1, IO_bind at 1, log.
  erewrite (rebuild_saves _ _ data path); [|done|by cbn [files]].
  fold idx. eexists. split; [reflexivity|]. cbn [files].
  unfold w1. cbn [files logged]. by rewrite insert_insert_eq.
Qed.
End Startup.

Lemma getOrBuildIndex_without_indexPath_witness :
  let config := mkConfig "measurements.txt" 4001 2 (Some "") in
  let w := mkWorld (<["measurements.txt" := seedFile]> ∅) [] in
  exists w1,
    getOrBuildIndex (fun d => [d]) config w
    = Returned (buildIndex [seedFile] 2) w1
    /\ files w1 = files w
    /\ console w1 = console w ++ [LogBuilding; LogCompleted].
Proof.
  intros config w.
  apply (getOrBuildIndex_without_indexPath (fun d => [d]) config w seedFile).
  - reflexivity.
  - reflexivity.
Defined.

Lemma getOrBuildIndex_twice_witness :
  let config := mkConfig "measurements.txt" 4001 2 (Some "measurements.idx") in
  let w := mkWorld (<["measurements.txt" := seedFile]> ∅) [] in
  exists w1 w2,
    getOrBuildIndex (fun d => [d]) config w
    = Returned (buildIndex [seedFile] 2) w1
    /\ files w1 = <["measurements.idx" := indexBytes (buildIndex [seedFile] 2)]>
                    (files w)
    /\ getOrBuildIndex (fun d => [d]) config w1
       = Returned (buildIndex [seedFile] 2) w2
    /\ files w2 = files w1.
Proof.
  intros config w.
  apply (getOrBuildIndex_twice (fun d => [d]) config w seedFile
                               "measurements.idx").
  - reflexivity.
  - discriminate.
  - reflexivity.
  - reflexivity.
  - reflexivity.
  - vm_compute. reflexivity.
  - simpl. lia.
Defined.


Section ParseSpec.
Variable decode : list byte -> string.

Lemma parseLoop_lines fuel rs partial rows maxRows startCol colCount :
  Forall noNewline rs -> noNewline partial ->
  (length (terminated rs ++ partial) < fuel)%nat ->
  parseLoop decode fuel (terminated rs ++ partial) rows
            maxRows startCol colCount
  = Some (rows
          ++ take (Z.to_nat (maxRows - Z.of_nat (length rows)))
                  (map (projectRecord decode startCol colCount)
                       (List.filter nonEmpty (rs ++ [partial])))).
Proof.
  intros Hrs Hpartial. revert fuel rows.
  induction Hrs as [|r rs Hr _ IH]; intros fuel rows Hfuel.
  - cbn [terminated flat_map app] in *.
    destruct fuel as [|fuel]; [lia|]. cbn [parseLoop].
    destruct partial as [|c p]; cbn [List.filter nonEmpty map];
      [by rewrite take_nil, app_nil_r|].
    destruct (Z.ltb_spec (Z.of_nat (length rows)) maxRows) as [Hlt|Hge].
    + rewrite (scanLine_noNewline _ Hpartial). cbn [drop].
      destruct fuel as [|fuel]; [cbn [length] in Hfuel; lia|].
      cbn [parseLoop].
      replace (Z.to_nat (maxRows - Z.of_nat (length rows)))
        with (S (Z.to_nat (maxRows - Z.of_nat (length rows) - 1))) by lia.
      cbn [firstn]. by rewrite take_nil.
    + replace (Z.to_nat (maxRows - Z.of_nat (length rows))) with 0%nat by lia.
      by rewrite take_0, app_nil_r.
  - destruct fuel as [|fuel]; [lia|].
    cbn [terminated flat_map] in *. fold (terminated rs) in *.
    rewrite <- !app_assoc in *. cbn [app] in *.
    assert (length (terminated rs ++ partial) < fuel)%nat as Hfuel'.
    { rewrite length_app in Hfuel. cbn [length] in Hfuel. lia. }
    destruct r as [|c r].
    + cbn [app parseLoop List.filter nonEmpty].
      destruct (Z.ltb_spec (Z.of_nat (length rows)) maxRows) as [Hlt|Hge].
      * cbn [scanLine]. change (is_newline NEWLINE) with true. cbv iota.
        cbn [drop]. rewrite drop_0. by apply IH.
      * replace (Z.to_nat (maxRows - Z.of_nat (length rows))) with 0%nat
          by lia.
        by rewrite take_0, app_nil_r.
    + cbn [app parseLoop List.filter nonEmpty map].
      destruct (Z.ltb_spec (Z.of_nat (length rows)) maxRows) as [Hlt|Hge].
      * change (c :: r ++ NEWLINE :: terminated rs ++ partial)
          with ((c :: r) ++ NEWLINE :: terminated rs ++ partial).
        rewrite scanLine_record by done. cbn [drop]. rewrite drop_0.
        fold (projectRecord decode startCol colCount (c :: r)).
        rewrite IH by done. rewrite length_app. cbn [length].
        replace (Z.to_nat (maxRows - Z.of_nat (length rows)))
          with (S (Z.to_nat (maxRows - Z.of_nat (length rows + 1)))) by lia.
        cbn [firstn]. by rewrite <- app_assoc.
      * replace (Z.to_nat (maxRows - Z.of_nat (length rows))) with 0%nat
          by lia.
        by rewrite take_0, app_nil_r.
Qed.

(** X12: what [parseRows] returns, for every chunk: after the first
    [skipRows] line terminators it turns every non-empty line into a row,
    the bytes after the last terminator included (a record cut by the end
    of the chunk is a row), skips the empty lines, and stops at [maxRows]
    rows. *)
Theorem parseRows_spec data skipRows maxRows startCol colCount :
  (skipRows <= length (records data))%nat ->
  parseRows decode data (Z.of_nat skipRows) maxRows startCol colCount
  = Some (take (Z.to_nat maxRows)
               (map (projectRecord decode startCol colCount)
                    (List.filter nonEmpty
                       (drop skipRows (records data)
                        ++ [unterminated data])))).
Proof.
  intros Hskip. destruct (splitLines_spec data) as (Hdata & Hrecs & Htail).
  set (recs := records data) in *. set (tail := unterminated data) in *.
  unfold parseRows.
  assert (skipLoop data 0 (Z.of_nat skipRows)
          = terminated (drop skipRows recs) ++ tail) as ->.
  { rewrite Hdata. rewrite <- (take_drop skipRows recs) at 1.
    rewrite terminated_app, <- app_assoc.
    pose proof (skipLoop_records (take skipRows recs)
                  (terminated (drop skipRows recs) ++ tail) 0) as Hs.
    rewrite length_take, Z.add_0_l in Hs.
    replace (skipRows `min` length recs)%nat with skipRows in Hs by lia.
    apply Hs. by apply Forall_take. }
  rewrite parseLoop_lines; [|by apply Forall_drop|done|].
  - cbn [app length]. by rewrite Z.sub_0_r.
  - apply (f_equal length) in Hdata.
    rewrite <- (take_drop skipRows recs), terminated_app in Hdata.
    rewrite !length_app in *. lia.
Qed.
End ParseSpec.

Lemma parseRows_spec_witness :
  parseRows decodeAscii (bytes "a;1" ++ NEWLINE :: NEWLINE :: bytes "b")
            (Z.of_nat 0) 5 0 2
  = Some (take (Z.to_nat 5)
            (map (projectRecord decodeAscii 0 2)
               (List.filter nonEmpty
                  (drop 0 (records (bytes "a;1" ++ NEWLINE :: NEWLINE
                                               :: bytes "b"))
                   ++ [unterminated (bytes "a;1" ++ NEWLINE :: NEWLINE
                                                 :: bytes "b")])))).
Proof.
  apply (parseRows_spec decodeAscii
           (bytes "a;1" ++ NEWLINE :: NEWLINE :: bytes "b") 0 5 0 2).
  simpl. lia.
Defined.

Section Content.
Variable decode : list byte -> string.

Lemma parseLoop_records_content fuel rs more rows maxRows startCol colCount :
  Forall noNewline rs -> Forall (fun r => r <> []) rs ->
  Z.of_nat (length rows + length rs) = maxRows ->
  (length rs < fuel)%nat ->
  parseLoop decode fuel (terminated rs ++ more) rows
            maxRows startCol colCount
  = Some (rows ++ map (projectRecord decode startCol colCount) rs).
Proof.
  intros Hrs. revert fuel rows.
  induction Hrs as [|r rs Hr _ IH]; intros fuel rows Hne Hmax Hfuel.
  - destruct fuel as [|fuel]; [cbn [length] in Hfuel; lia|].
    cbn [terminated flat_map app parseLoop length map] in *.
    rewrite app_nil_r.
    destruct more as [|b more]; [done|].
    by destruct (Z.ltb_spec (Z.of_nat (length rows)) maxRows); [lia|].
  - destruct fuel as [|fuel]; [lia|].
    apply Forall_cons in Hne as [Hrne Hne'].
    cbn [terminated flat_map length map] in *. rewrite <- !app_assoc.
    cbn [app]. fold (terminated rs).
    destruct r as [|c r]; [done|].
    cbn [app parseLoop].
    destruct (Z.ltb_spec (Z.of_nat (length rows)) maxRows); [|lia].
    change (c :: r ++ NEWLINE :: terminated rs ++ more)
      with ((c :: r) ++ NEWLINE :: terminated rs ++ more).
    rewrite scanLine_record by done. cbn [drop]. rewrite drop_0.
    fold (projectRecord decode startCol colCount (c :: r)).
    rewrite IH; [by rewrite <- app_assoc|done| |lia].
    rewrite length_app. cbn [length]. lia.
Qed.

(** X13: when the file has no empty record and the records from the anchor
    row up to the last requested row fit the first read, the rows of the
    response are the requested records, in file order, each projected on
    the requested columns. *)
Theorem getSlice_returns_requested_records
    chunks G startRow rowCount startCol colCount :
  1 <= G -> Z.of_nat (length (concat chunks)) < 2 ^ 64 ->
  0 <= startRow -> 0 < rowCount ->
  startRow + rowCount <= Z.of_nat (length (records (concat chunks))) ->
  Forall (fun r => r <> []) (records (concat chunks)) ->
  recordStart (records (concat chunks)) (Z.to_nat (startRow + rowCount))
    - recordStart (records (concat chunks))
                  (Z.to_nat startRow / Z.to_nat G * Z.to_nat G)
    <= Z.max ((startRow - startRow / G * G + rowCount) * 30)
             READ_BUFFER_SIZE ->
  let sc := Z.max 0 (Z.min startCol (TOTAL_COLS - 1)) in
  let cc := Z.min colCount (TOTAL_COLS - sc) in
  getSlice decode (newSlicer (concat chunks) (buildIndex chunks G))
           startRow rowCount startCol colCount
  = Some (mkSliceResponse startRow rowCount sc cc
            (Array_slice COL_LETTERS sc (sc + cc))
            (map (projectRecord decode sc cc)
                 (take (Z.to_nat rowCount)
                       (drop (Z.to_nat startRow)
                             (records (concat chunks)))))).
Proof.
  intros HG Hsize Hsr0 Hrc0 Hrange Hne Hfit sc cc.
  rewrite buildIndex_records by done.
  destruct (splitLines_spec (concat chunks)) as (Hdata & Hrecs & Htail).
  set (data := concat chunks) in *.
  set (recs := records data) in *. set (tail := unterminated data) in *.
  unfold getSlice, newSlicer.
  cbn [index totalRows granularity offsets fileSize].
  set (n := Z.of_nat (length recs)) in *.
  fold sc. fold cc.
  replace (Z.max 0 (Z.min startRow (n - 1))) with startRow by lia.
  replace (Z.min rowCount (n - startRow)) with rowCount by lia.
  destruct (Z.leb_spec rowCount 0) as [?|_]; [lia|].
  destruct (Z.eqb_spec G 0) as [?|_]; [lia|].
  rewrite anchor_lookup by lia. cbn [mbind option_bind].
  assert (exists j0 : nat,
            (j0 <= Z.to_nat startRow)%nat
            /\ Math_floor_div startRow G * G = Z.of_nat j0
            /\ (Z.to_nat startRow / Z.to_nat G * Z.to_nat G)%nat = j0)
    as (j0 & Hj0 & Hanchor & Hj0eq).
  { eexists. split; [|split; [|reflexivity]].
    - pose proof (Nat.div_mod_eq (Z.to_nat startRow) (Z.to_nat G)). lia.
    - unfold Math_floor_div.
      by rewrite Nat2Z.inj_mul, Nat2Z.inj_div, !Z2Nat.id by lia. }
  rewrite Hj0eq, Hanchor. unfold Math_floor_div in Hanchor.
  rewrite Hj0eq, Hanchor in Hfit. clear Hj0eq Hanchor.
  remember (Z.to_nat startRow) as i eqn:Hi.
  remember (Z.to_nat rowCount) as c eqn:Hc.
  set (a := recordStart recs j0) in *.
  set (skip := startRow - Z.of_nat j0) in *.
  assert (skip = Z.of_nat (i - j0)) as Hskip by (subst skip; lia).
  set (window := terminated (take (i - j0 + c) (drop j0 recs))).
  assert (Z.of_nat (length window)
          <= Z.max ((skip + rowCount) * 30) READ_BUFFER_SIZE) as Hwin.
  { replace (Z.to_nat (startRow + rowCount)) with (j0 + (i - j0 + c))%nat
      in Hfit by lia.
    rewrite recordStart_add in Hfit. fold window in Hfit. lia. }
  assert (drop (Z.to_nat a) data
          = window ++ terminated (drop (i - j0 + c) (drop j0 recs)) ++ tail)
    as Hdrop.
  { rewrite Hdata. unfold a. rewrite drop_recordStart.
    rewrite <- (take_drop (i - j0 + c) (drop j0 recs)) at 1.
    by rewrite terminated_app, <- app_assoc. }
  assert (0 <= a /\ a + Z.of_nat (length window) <= Z.of_nat (length data))
    as [Ha Hroom].
  { split; [unfold a, recordStart; lia|].
    apply (f_equal length) in Hdrop.
    rewrite length_drop, !length_app in Hdrop.
    pose proof (recordStart_le recs tail j0) as Hle. rewrite <- Hdata in Hle.
    fold a in Hle. lia. }
  set (len := Z.min (Z.max ((skip + rowCount) * 30) READ_BUFFER_SIZE)
                    (Z.of_nat (length data) - a)).
  assert (Z.of_nat (length window) <= len) as Hlen by (unfold len; lia).
  rewrite readBytes_window by (cbn [file]; unfold len; lia).
  cbn [file].
  rewrite Hdrop, take_app_ge by lia.
  set (rest := take (Z.to_nat len - length window) _).
  assert (window = terminated (take (i - j0) (drop j0 recs))
                   ++ terminated (take c (drop i recs))) as Hsplit.
  { unfold window. rewrite <- take_take_drop, terminated_app, drop_drop.
    by replace (j0 + (i - j0))%nat with i by lia. }
  assert (length (take (i - j0) (drop j0 recs)) = (i - j0)%nat) as Hl1.
  { rewrite length_take, length_drop. unfold n in Hrange. lia. }
  assert (length (take c (drop i recs)) = c) as Hl2.
  { rewrite length_take, length_drop. unfold n in Hrange. lia. }
  unfold parseRows.
  set (fuel := S (length (window ++ rest))).
  rewrite Hsplit, <- !app_assoc.
  pose proof (skipLoop_records (take (i - j0) (drop j0 recs))
                (terminated (take c (drop i recs)) ++ rest) 0) as Hskipped.
  rewrite Z.add_0_l, Hl1, <- Hskip in Hskipped.
  rewrite Hskipped by (apply Forall_take, Forall_drop; exact Hrecs).
  clear Hskipped.
  rewrite parseLoop_records_content.
  - cbn [mbind option_bind app]. rewrite length_map, Hl2.
    replace (Z.of_nat c) with rowCount by lia.
    rewrite Z.ltb_irrefl. cbn [andb]. reflexivity.
  - apply Forall_take, Forall_drop; exact Hrecs.
  - apply Forall_take, Forall_drop; exact Hne.
  - rewrite Hl2. cbn [length]. lia.
  - unfold fuel. rewrite Hsplit, !length_app.
    pose proof (length_terminated_ge (take c (drop i recs))). lia.
Qed.
End Content.

Lemma getSlice_returns_requested_records_witness :
  getSlice decodeAscii (newSlicer (concat [seedFile]) (buildIndex [seedFile] 2))
           1 3 0 2
  = Some (mkSliceResponse 1 3 (Z.max 0 (Z.min 0 (TOTAL_COLS - 1)))
            (Z.min 2 (TOTAL_COLS - Z.max 0 (Z.min 0 (TOTAL_COLS - 1))))
            (Array_slice COL_LETTERS (Z.max 0 (Z.min 0 (TOTAL_COLS - 1)))
               (Z.max 0 (Z.min 0 (TOTAL_COLS - 1))
                + Z.min 2 (TOTAL_COLS - Z.max 0 (Z.min 0 (TOTAL_COLS - 1)))))
            (map (projectRecord decodeAscii
                    (Z.max 0 (Z.min 0 (TOTAL_COLS - 1)))
                    (Z.min 2 (TOTAL_COLS - Z.max 0 (Z.min 0 (TOTAL_COLS - 1)))))
                 (take (Z.to_nat 3)
                       (drop (Z.to_nat 1) (records (concat [seedFile])))))).
Proof.
  apply (getSlice_returns_requested_records decodeAscii [seedFile] 2 1 3 0 2).
  - lia.
  - vm_compute. reflexivity.
  - lia.
  - lia.
  - vm_compute. discriminate.
  - vm_compute. repeat (constructor; [discriminate|]). constructor.
  - vm_compute. discriminate.
Defined.

Section Fields.
Variable decode : list byte -> string.

(** The fields of any response of [getSlice]. *)
Lemma getSlice_fields s startRow rowCount startCol colCount r :
  0 <= colCount ->
  getSlice decode s startRow rowCount startCol colCount = Some r ->
  let sr := Z.max 0 (Z.min startRow (totalRows (index s) - 1)) in
  let rc := Z.min rowCount (totalRows (index s) - sr) in
  let sc := Z.max 0 (Z.min startCol (TOTAL_COLS - 1)) in
  let cc := Z.min colCount (TOTAL_COLS - sc) in
  resp_startRow r = sr /\ resp_startCol r = sc /\ resp_colCount r = cc
  /\ resp_colLetters r = Array_slice COL_LETTERS sc (sc + cc)
  /\ 0 <= resp_rowCount r <= Z.max 0 rc.
Proof.
  intros Hcc. unfold getSlice.
  set (sr := Z.max 0 (Z.min startRow (totalRows (index s) - 1))).
  set (rc := Z.min rowCount (totalRows (index s) - sr)).
  set (sc := Z.max 0 (Z.min startCol (TOTAL_COLS - 1))).
  set (cc := Z.min colCount (TOTAL_COLS - sc)).
  assert (0 <= sc <= 1) as Hsc by (unfold sc, TOTAL_COLS; lia).
  assert (0 <= cc) as Hcc' by (unfold cc, TOTAL_COLS; lia).
  destruct (Z.leb_spec rc 0) as [_|Hrc].
  { intros [= <-]. cbn. repeat split; lia. }
  destruct (granularity (index s) =? 0); [done|].
  destruct (typedArray_get _ _) as [indexOffset|]; [|done].
  cbn [mbind option_bind].
  match goal with
  | |- context [parseRows decode ?chunk ?skip rc sc cc] =>
      destruct (parseRows_total decode chunk skip rc sc cc)
        as (rows & Hrows & _ & Hcount); [lia..|]
  end.
  rewrite Hrows. cbn [mbind option_bind].
  destruct (_ && _).
  - destruct (_ <? _).
    + match goal with
      | |- context [parseRows decode ?chunk ?skip rc sc cc] =>
          destruct (parseRows_total decode chunk skip rc sc cc)
            as (more & Hmore & _ & Hcount'); [lia..|]
      end.
      rewrite Hmore. cbn [mbind option_bind]. intros [= <-]. cbn.
      repeat split; lia.
    + intros [= <-]. cbn. repeat split; lia.
  - intros [= <-]. cbn. repeat split; lia.
Qed.

(** X14: a response never holds more rows than were asked for, and its rows
    and columns lie inside the table: [startRow + rowCount <= totalRows]
    and [startCol + colCount <= TOTAL_COLS]. *)
Theorem getSlice_within_bounds chunks G startRow rowCount startCol colCount :
  1 <= G -> Z.of_nat (length (concat chunks)) < 2 ^ 64 ->
  0 <= colCount ->
  exists r,
    getSlice decode (newSlicer (concat chunks) (buildIndex chunks G))
             startRow rowCount startCol colCount = Some r
    /\ 0 <= resp_rowCount r <= Z.max 0 rowCount
    /\ 0 <= resp_startRow r
    /\ resp_startRow r + resp_rowCount r <= totalRows (buildIndex chunks G)
    /\ 0 <= resp_startCol r /\ 0 <= resp_colCount r <= colCount
    /\ resp_startCol r + resp_colCount r <= TOTAL_COLS.
Proof.
  intros HG Hsize Hcc.
  destruct (getSlice_returns decode chunks G startRow rowCount startCol
              colCount HG Hsize Hcc) as [r Hr].
  exists r. split; [done|].
  destruct (getSlice_fields _ _ _ _ _ _ Hcc Hr)
    as (Hsr & Hsc & Hccr & _ & Hrows).
  cbn [newSlicer index] in *.
  assert (0 <= totalRows (buildIndex chunks G)) as Hn.
  { rewrite buildIndex_records by done. cbn [totalRows]. lia. }
  rewrite Hsr, Hsc, Hccr. unfold TOTAL_COLS. lia.
Qed.

(** X15: for a data file (below [2^64] bytes), its index built with a
    granularity [G >= 1], and every request with [colCount >= 0],
    [getSlice] returns a response whose [colLetters] has as many entries
    as its [colCount] says, entry [i] being the label
    [columnIndexToLetters] gives to column [startCol + i] of the
    response. *)
Theorem getSlice_colLetters chunks G startRow rowCount startCol colCount :
  1 <= G -> Z.of_nat (length (concat chunks)) < 2 ^ 64 ->
  0 <= colCount ->
  exists r,
    getSlice decode (newSlicer (concat chunks) (buildIndex chunks G))
             startRow rowCount startCol colCount = Some r
    /\ Z.of_nat (length (resp_colLetters r)) = resp_colCount r
    /\ forall i, (i < length (resp_colLetters r))%nat ->
         columnIndexToLetters (resp_startCol r + Z.of_nat i)
         = resp_colLetters r !! i.
Proof.
  intros HG Hsize Hcc.
  destruct (getSlice_returns decode chunks G startRow rowCount startCol
              colCount HG Hsize Hcc) as [r Hr].
  exists r. split; [done|].
  destruct (getSlice_fields _ _ _ _ _ _ Hcc Hr)
    as (_ & Hsc & Hccr & Hletters & _).
  rewrite Hletters, Hsc, Hccr.
  remember (Z.max 0 (Z.min startCol (TOTAL_COLS - 1))) as sc eqn:Hsceq.
  remember (Z.min colCount (TOTAL_COLS - sc)) as cc eqn:Hcceq.
  assert ((sc = 0 /\ (cc = 0 \/ cc = 1 \/ cc = 2))
          \/ (sc = 1 /\ (cc = 0 \/ cc = 1))) as Hcases
    by (unfold TOTAL_COLS in *; lia).
  clear Hsceq Hcceq Hsc Hccr Hletters.
  destruct Hcases as [[Hs [Hc|[Hc|Hc]]]|[Hs [Hc|Hc]]]; subst sc cc;
    (split; [reflexivity|]); intros i;
    set (letters := Array_slice COL_LETTERS _ _); vm_compute in letters;
    subst letters; cbn [length]; intros Hi;
    repeat (destruct i as [|i]; [reflexivity|]); lia.
Qed.
End Fields.

Lemma getSlice_within_bounds_witness :
  exists r,
    getSlice decodeAscii (newSlicer (concat [seedFile])
                                    (buildIndex [seedFile] 2))
             3 10 1 7 = Some r
    /\ 0 <= resp_rowCount r <= Z.max 0 10
    /\ 0 <= resp_startRow r
    /\ resp_startRow r + resp_rowCount r <= totalRows (buildIndex [seedFile] 2)
    /\ 0 <= resp_startCol r /\ 0 <= resp_colCount r <= 7
    /\ resp_startCol r + resp_colCount r <= TOTAL_COLS.
Proof.
  apply (getSlice_within_bounds decodeAscii [seedFile] 2 3 10 1 7).
  - lia.
  - vm_compute. reflexivity.
  - lia.
Defined.

Lemma getSlice_colLetters_witness :
  exists r,
    getSlice decodeAscii (newSlicer (concat [seedFile])
                                    (buildIndex [seedFile] 2))
             0 2 1 5 = Some r
    /\ Z.of_nat (length (resp_colLetters r)) = resp_colCount r
    /\ forall i, (i < length (resp_colLetters r))%nat ->
         columnIndexToLetters (resp_startCol r + Z.of_nat i)
         = resp_colLetters r !! i.
Proof.
  apply (getSlice_colLetters decodeAscii [seedFile] 2 0 2 1 5).
  - lia.
  - vm_compute. reflexivity.
  - lia.
Defined.

(** With a negative [colCount] the response keeps it, and [slice] counts
    its end from the end of [COL_LETTERS]. *)
Example getSlice_negative_colCount :
  getSlice decodeAscii seedSlicer 0 2 0 (-1)
  = Some (mkSliceResponse 0 2 0 (-1) ["A"]%string
            [ ["Hamburg"]; ["Bulawayo"] ]%string).
Proof. reflexivity. Qed.

Lemma substring_whole s : substring 0 (String.length s) s = s.
Proof. induction s as [|c s IH]; [done|]. cbn. by rewrite IH. Qed.

Lemma index_semicolon_cons c s :
  String.index 0 ";" (String c s)
  = if ascii_dec ";" c then Some 0%nat
    else option_map S (String.index 0 ";" s).
Proof.
  cbn [String.index String.prefix].
  destruct (ascii_dec ";" c); [by destruct s|].
  by destruct (String.index 0 ";" s).
Qed.

Lemma index_semicolon_spec line :
  match String.index 0 ";" line with
  | None => ~ In ";"%char (list_ascii_of_string line)
  | Some n =>
      line = (substring 0 n line ++ ";"
              ++ substring (S n) (String.length line - S n) line)%string
      /\ ~ In ";"%char (list_ascii_of_string (substring 0 n line))
  end.
Proof.
  induction line as [|c s IH]; [by intros []|].
  rewrite index_semicolon_cons. destruct (ascii_dec ";" c) as [<-|Hc].
  - cbn [String.length substring Nat.sub String.append].
    replace (String.length s - 0)%nat with (String.length s) by lia.
    rewrite substring_whole. split; [done|by intros []].
  - destruct (String.index 0 ";" s) as [n|]; cbn [option_map].
    + destruct IH as [Hline Ha].
      cbn [String.length substring Nat.sub String.append list_ascii_of_string]
        in Hline |- *.
      split.
      * change (String c s
                = String c (substring 0 n s +:+ ";"
                            +:+ substring (S n) (String.length s - S n) s)).
        by rewrite <- Hline.
      * intros [?|?]; [done|]. by apply Ha.
    + cbn [list_ascii_of_string]. intros [?|?]; [done|]. by apply IH.
Qed.

(** X16: a line is cut at its first semicolon, which is dropped: the two
    cells joined by a semicolon are the line, and the first cell has no
    semicolon; a line without semicolon is the first cell and the second
    cell is empty. *)
Theorem splitLine_spec line :
  (~ In ";"%char (list_ascii_of_string line)
   /\ splitLine line = [line; ""%string])
  \/ (exists a b,
        splitLine line = [a; b]
        /\ line = (a ++ ";" ++ b)%string
        /\ ~ In ";"%char (list_ascii_of_string a)).
Proof.
  unfold splitLine. pose proof (index_semicolon_spec line) as Hidx.
  destruct (String.index 0 ";" line) as [n|].
  - right. destruct Hidx as [Hline Ha]. by eexists _, _.
  - left. by split.
Qed.


(** X17: for non-zero row height and column width, [computeSliceParams]
    returns a slice of 0 to 1000 rows and 0 to 200 columns, with
    non-negative start row and column, and no more rows (columns) than
    remain after [floor (scrollTop / defaultRowHeight)]
    ([floor (scrollLeft / defaultColumnWidth)]). *)
Theorem computeSliceParams_caps params :
  defaultRowHeight params <> 0 -> defaultColumnWidth params <> 0 ->
  exists r,
    computeSliceParams params = Some r
    /\ 0 <= rowCount r <= 1000 /\ 0 <= colCount r <= 200
    /\ 0 <= startRow r /\ 0 <= startCol r
    /\ rowCount r
       <= Z.max 0 (maxRows params
                   - Math_floor_div (scrollTop params)
                                    (defaultRowHeight params))
    /\ colCount r
       <= Z.max 0 (maxCols params
                   - Math_floor_div (scrollLeft params)
                                    (defaultColumnWidth params)).
Proof.
  intros Hh Hw. unfold computeSliceParams.
  destruct (Z.eqb_spec (defaultRowHeight params) 0) as [?|_]; [done|].
  destruct (Z.eqb_spec (defaultColumnWidth params) 0) as [?|_]; [done|].
  cbn [orb]. eexists. split; [reflexivity|]. cbn [startRow rowCount startCol colCount].
  repeat match goal with |- context [if ?a <? ?b then _ else _] =>
    destruct (Z.ltb_spec a b) end; lia.
Qed.

Lemma computeSliceParams_caps_witness :
  exists r,
    computeSliceParams (mkViewport 100000 90000 2 5 100 24 0 48 1000000 2)
    = Some r
    /\ 0 <= rowCount r <= 1000 /\ 0 <= colCount r <= 200
    /\ 0 <= startRow r /\ 0 <= startCol r
    /\ rowCount r <= Z.max 0 (1000000 - Math_floor_div 48 24)
    /\ colCount r <= Z.max 0 (2 - Math_floor_div 0 100).
Proof.
  apply (computeSliceParams_caps
           (mkViewport 100000 90000 2 5 100 24 0 48 1000000 2)).
  - simpl. lia.
  - simpl. lia.
Defined.

(** X18: for a positive row height, a larger [scrollTop] never gives a
    smaller [startRow]. *)
Theorem computeSliceParams_startRow_monotone p1 p2 :
  0 < defaultRowHeight p1 -> defaultRowHeight p2 = defaultRowHeight p1 ->
  defaultColumnWidth p1 <> 0 -> defaultColumnWidth p2 <> 0 ->
  scrollTop p1 <= scrollTop p2 ->
  exists r1 r2,
    computeSliceParams p1 = Some r1 /\ computeSliceParams p2 = Some r2
    /\ startRow r1 <= startRow r2.
Proof.
  intros Hh Hsame Hw1 Hw2 Hscroll. unfold computeSliceParams.
  rewrite Hsame.
  destruct (Z.eqb_spec (defaultRowHeight p1) 0) as [?|_]; [lia|].
  destruct (Z.eqb_spec (defaultColumnWidth p1) 0) as [?|_]; [done|].
  destruct (Z.eqb_spec (defaultColumnWidth p2) 0) as [?|_]; [done|].
  cbn [orb]. eexists. eexists. split; [reflexivity|]. split; [reflexivity|].
  cbn [startRow]. unfold Math_floor_div.
  pose proof (Z.div_le_mono (scrollTop p1) (scrollTop p2)
                            (defaultRowHeight p1) Hh Hscroll).
  lia.
Qed.

Lemma computeSliceParams_startRow_monotone_witness :
  exists r1 r2,
    computeSliceParams (mkViewport 1000 480 2 5 100 24 0 47 5 2) = Some r1
    /\ computeSliceParams (mkViewport 1000 480 2 5 100 24 0 48 5 2) = Some r2
    /\ startRow r1 <= startRow r2.
Proof.
  apply (computeSliceParams_startRow_monotone
           (mkViewport 1000 480 2 5 100 24 0 47 5 2)
           (mkViewport 1000 480 2 5 100 24 0 48 5 2)).
  - simpl. lia.
  - reflexivity.
  - simpl. lia.
  - simpl. lia.
  - simpl. lia.
Defined.

(** X19: on a viewport with positive cell sizes and non-negative scroll
    position, screen size and buffers, the slice of [computeSliceParams]
    is the window of the frontend's [computeWindow] with its row count
    capped at 1000 and its column count at 200. *)
Theorem computeSliceParams_mirrors_computeWindow inp :
  0 < defaultRowHeight inp -> 0 < defaultColumnWidth inp ->
  0 <= scrollTop inp -> 0 <= scrollLeft inp ->
  0 <= screenHeight inp -> 0 <= screenWidth inp ->
  0 <= verticalBuffer inp -> 0 <= horizontalBuffer inp ->
  exists win,
    computeWindow inp = Some win
    /\ computeSliceParams inp
       = Some (mkSliceParams (startRow win) (Z.min (rowCount win) 1000)
                             (startCol win) (Z.min (colCount win) 200)).
Proof.
  intros Hh Hw Htop Hleft Hsh Hsw Hvb Hhb.
  unfold computeWindow, computeSliceParams.
  destruct (Z.eqb_spec (defaultRowHeight inp) 0) as [?|_]; [lia|].
  destruct (Z.eqb_spec (defaultColumnWidth inp) 0) as [?|_]; [lia|].
  cbn [orb]. eexists. split; [reflexivity|].
  cbn [startRow rowCount startCol colCount].
  pose proof (Math_ceil_div_spec (screenHeight inp) (defaultRowHeight inp) Hh).
  pose proof (Math_ceil_div_spec (screenWidth inp) (defaultColumnWidth inp) Hw).
  pose proof (Math_floor_div_spec (scrollTop inp) (defaultRowHeight inp) Hh).
  pose proof (Math_floor_div_spec (scrollLeft inp) (defaultColumnWidth inp)
                                  Hw).
  set (visibleRows := Math_ceil_div _ _) in *.
  set (visibleCols := Math_ceil_div _ _) in *.
  set (firstRow := Math_floor_div (scrollTop inp) _) in *.
  set (firstCol := Math_floor_div (scrollLeft inp) _) in *.
  assert (0 <= visibleRows) by nia. assert (0 <= visibleCols) by nia.
  assert (0 <= firstRow) by nia. assert (0 <= firstCol) by nia.
  repeat match goal with |- context [if ?a <? ?b then _ else _] =>
    destruct (Z.ltb_spec a b) end; f_equal; f_equal; lia.
Qed.

Lemma computeSliceParams_mirrors_computeWindow_witness :
  exists win,
    computeWindow (mkViewport 1000 480 2 5 100 24 0 48 1000000 2) = Some win
    /\ computeSliceParams (mkViewport 1000 480 2 5 100 24 0 48 1000000 2)
       = Some (mkSliceParams (startRow win) (Z.min (rowCount win) 1000)
                             (startCol win) (Z.min (colCount win) 200)).
Proof.
  apply (computeSliceParams_mirrors_computeWindow
           (mkViewport 1000 480 2 5 100 24 0 48 1000000 2));
    simpl; lia.
Defined.

Section ServerProps.
Variable decode : list byte -> string.

(** A request with a non-positive row count gets the empty response,
    whatever index the slicer holds. *)
Lemma getSlice_no_rows s startRow rowCount startCol colCount :
  rowCount <= 0 ->
  exists r,
    getSlice decode s startRow rowCount startCol colCount = Some r
    /\ resp_rowCount r = 0 /\ resp_cellsByRow r = [].
Proof.
  intros Hrc. unfold getSlice.
  destruct (Z.leb_spec (Z.min rowCount
              (totalRows (index s)
               - Z.max 0 (Z.min startRow (totalRows (index s) - 1)))) 0);
    [|lia].
  by eexists.
Qed.

(** X20: the server answers a slice request whose [scrollTop] is at or
    past [totalRows * defaultRowHeight] with an empty slice: [rowCount = 0]
    and no rows. *)
Theorem message_slice_past_end slicer
    screenWidth screenHeight horizontalBuffer verticalBuffer
    defaultColumnWidth defaultRowHeight scrollLeft scrollTop :
  0 < defaultRowHeight -> defaultColumnWidth <> 0 ->
  totalRows (index slicer) * defaultRowHeight <= scrollTop ->
  exists r,
    message decode slicer
      (SliceRequest screenWidth screenHeight horizontalBuffer verticalBuffer
                    defaultColumnWidth defaultRowHeight scrollLeft scrollTop)
    = Some (SliceResponseMessage r)
    /\ resp_rowCount r = 0 /\ resp_cellsByRow r = [].
Proof.
  intros Hh Hw Hpast. unfold message.
  destruct (computeSliceParams_caps
              (mkViewport screenWidth screenHeight horizontalBuffer
                 verticalBuffer defaultColumnWidth defaultRowHeight
                 scrollLeft scrollTop (totalRows (index slicer)) TOTAL_COLS))
    as (p & -> & [Hrc0 _] & _ & _ & _ & Hrc & _);
    [cbn; lia|done|].
  cbn in Hrc.
  assert (rowCount p <= 0) as Hnone.
  { unfold Math_floor_div in Hrc.
    pose proof (Z.div_le_lower_bound scrollTop defaultRowHeight
                  (totalRows (index slicer)) Hh ltac:(lia)).
    lia. }
  cbn [mbind option_bind].
  destruct (getSlice_no_rows slicer (startRow p) (rowCount p) (startCol p)
              (colCount p) Hnone) as (r & -> & Hr).
  by exists r.
Qed.

(** X21: whatever the viewport of a slice request (non-zero cell sizes),
    the server answers with a slice of at most 1000 rows and at most
    [TOTAL_COLS] columns, whose [cellsByRow] has [rowCount] rows of
    [colCount] cells. *)
Theorem message_slice_capped chunks G
    screenWidth screenHeight horizontalBuffer verticalBuffer
    defaultColumnWidth defaultRowHeight scrollLeft scrollTop :
  1 <= G -> Z.of_nat (length (concat chunks)) < 2 ^ 64 ->
  defaultRowHeight <> 0 -> defaultColumnWidth <> 0 ->
  exists r,
    message decode (newSlicer (concat chunks) (buildIndex chunks G))
      (SliceRequest screenWidth screenHeight horizontalBuffer verticalBuffer
                    defaultColumnWidth defaultRowHeight scrollLeft scrollTop)
    = Some (SliceResponseMessage r)
    /\ 0 <= resp_rowCount r <= 1000
    /\ 0 <= resp_colCount r <= TOTAL_COLS
    /\ Z.of_nat (length (resp_cellsByRow r)) = resp_rowCount r
    /\ Forall (fun row => Z.of_nat (length row) = resp_colCount r)
              (resp_cellsByRow r).
Proof.
  intros HG Hsize Hh Hw. unfold message.
  destruct (computeSliceParams_caps
              (mkViewport screenWidth screenHeight horizontalBuffer
                 verticalBuffer defaultColumnWidth defaultRowHeight
                 scrollLeft scrollTop
                 (totalRows (index (newSlicer (concat chunks)
                                              (buildIndex chunks G))))
                 TOTAL_COLS))
    as (p & -> & Hrc & Hcc & _); [done|done|].
  cbn [mbind option_bind].
  destruct (getSlice_returns decode chunks G (startRow p) (rowCount p)
              (startCol p) (colCount p) HG Hsize ltac:(lia)) as [r Hr].
  rewrite Hr. cbn [mbind option_bind]. exists r. split; [done|].
  assert (0 <= colCount p) as Hcc0 by lia.
  destruct (getSlice_fields decode _ _ _ _ _ _ Hcc0 Hr)
    as (_ & _ & Hccr & _ & Hrows).
  destruct (getSlice_consistent_any decode _ _ _ _ _ _ Hcc0 Hr)
    as [Hlen Hwidth].
  rewrite Hccr. unfold TOTAL_COLS in *. repeat split; [lia..|done|].
  by rewrite <- Hccr.
Qed.
End ServerProps.

Lemma message_slice_past_end_witness :
  exists r,
    message decodeAscii seedSlicer (SliceRequest 1000 480 2 5 100 24 0 240)
    = Some (SliceResponseMessage r)
    /\ resp_rowCount r = 0 /\ resp_cellsByRow r = [].
Proof.
  apply (message_slice_past_end decodeAscii seedSlicer 1000 480 2 5 100 24 0
                                240).
  - lia.
  - lia.
  - vm_compute. discriminate.
Defined.

Lemma message_slice_capped_witness :
  exists r,
    message decodeAscii (newSlicer (concat [seedFile])
                                   (buildIndex [seedFile] 2))
            (SliceRequest 1000 480 2 5 100 24 0 24)
    = Some (SliceResponseMessage r)
    /\ 0 <= resp_rowCount r <= 1000
    /\ 0 <= resp_colCount r <= TOTAL_COLS
    /\ Z.of_nat (length (resp_cellsByRow r)) = resp_rowCount r
    /\ Forall (fun row => Z.of_nat (length row) = resp_colCount r)
              (resp_cellsByRow r).
Proof.
  apply (message_slice_capped decodeAscii [seedFile] 2 1000 480 2 5 100 24 0
                              24).
  - lia.
  - vm_compute. reflexivity.
  - lia.
  - lia.
Defined.

Lemma columnIndexToLetters_value n :
  0 <= n < 2 ^ 32 ->
  exists s, columnIndexToLetters n = Some s /\ lettersToIndex s = n.
Proof.
  intros Hn. unfold columnIndexToLetters. rewrite (Z.mod_small n) by done.
  destruct (lettersLoop_spec 31 n []) as (ds & Hloop & _ & Hval).
  { split; [lia|]. eapply Z.lt_trans; [apply Hn|]. reflexivity. }
  rewrite Hloop. cbn [mbind option_bind app]. eexists. split; [reflexivity|].
  unfold lettersToIndex.
  rewrite list_ascii_of_string_of_list_ascii, lettersValue_rev. lia.
Qed.

(** X22: two different column indices below [2^32] never get the same
    label. *)
Theorem columnIndexToLetters_injective n m :
  0 <= n < 2 ^ 32 -> 0 <= m < 2 ^ 32 -> n <> m ->
  columnIndexToLetters n <> columnIndexToLetters m.
Proof.
  intros Hn Hm Hdiff Hsame.
  destruct (columnIndexToLetters_value n Hn) as (s & Hs & Hsn).
  destruct (columnIndexToLetters_value m Hm) as (t & Ht & Htm).
  rewrite Hs, Ht in Hsame. injection Hsame as ->. lia.
Qed.

Lemma columnIndexToLetters_injective_witness :
  columnIndexToLetters 26 <> columnIndexToLetters 702.
Proof.
  apply (columnIndexToLetters_injective 26 702).
  - split; [lia|reflexivity].
  - split; [lia|reflexivity].
  - lia.
Defined.


(** X23: [onKeyDown] never reaches [jumpEdge]: the arrow keys are handled
    by their own cases before the default case tests Cmd/Ctrl, so with or
    without Cmd/Ctrl, and whatever slice is shown, a key moves the
    selection as the plain key does. *)
Theorem onKeyDown_never_jumps key meta current
    maxRows maxCols maxRowsRef maxColsRef sel :
  onKeyDown key meta current maxRows maxCols maxRowsRef maxColsRef sel
  = onKeyDown key false None 0 0 maxRowsRef maxColsRef sel.
Proof.
  unfold onKeyDown.
  destruct (String.eqb key "ArrowUp") eqn:Hup; [done|].
  destruct (String.eqb key "ArrowDown") eqn:Hdown; [done|].
  destruct (String.eqb key "ArrowLeft") eqn:Hleft; [done|].
  destruct (String.eqb key "ArrowRight") eqn:Hright; [done|].
  destruct (String.eqb key "Home"); [done|].
  destruct (String.eqb key "End"); [done|].
  by rewrite !andb_false_r.
Qed.

(** X24: a key press leaves a selection that is inside the table inside
    the table, moves it by at most one row, and never changes its row and
    its column at once. *)
Theorem onKeyDown_stays_in_table key meta current
    maxRows maxCols maxRowsRef maxColsRef sel sel' :
  0 <= selRow sel < Z.max 1 maxRowsRef ->
  0 <= selCol sel < Z.max 1 maxColsRef ->
  onKeyDown key meta current maxRows maxCols maxRowsRef maxColsRef sel
  = Some sel' ->
  0 <= selRow sel' < Z.max 1 maxRowsRef
  /\ 0 <= selCol sel' < Z.max 1 maxColsRef
  /\ Z.abs (selRow sel' - selRow sel) <= 1
  /\ (selRow sel' = selRow sel \/ selCol sel' = selCol sel).
Proof.
  intros Hrow Hcol. unfold onKeyDown.
  destruct (String.eqb key "ArrowUp"); [intros [= <-]; cbn; lia|].
  destruct (String.eqb key "ArrowDown"); [intros [= <-]; cbn; lia|].
  destruct (String.eqb key "ArrowLeft"); [intros [= <-]; cbn; lia|].
  destruct (String.eqb key "ArrowRight"); [intros [= <-]; cbn; lia|].
  destruct (String.eqb key "Home"); [intros [= <-]; cbn; lia|].
  destruct (String.eqb key "End"); [intros [= <-]; cbn; lia|].
  by rewrite !andb_false_r.
Qed.

Lemma onKeyDown_stays_in_table_witness :
  0 <= selRow (mkSelection 4 1) < Z.max 1 5
  /\ 0 <= selCol (mkSelection 4 1) < Z.max 1 2
  /\ Z.abs (selRow (mkSelection 4 1) - selRow (mkSelection 4 1)) <= 1
  /\ (selRow (mkSelection 4 1) = selRow (mkSelection 4 1)
      \/ selCol (mkSelection 4 1) = selCol (mkSelection 4 1)).
Proof.
  apply (onKeyDown_stays_in_table "ArrowDown" true None 5 2 5 2
                                  (mkSelection 4 1) (mkSelection 4 1)).
  - simpl. lia.
  - simpl. lia.
  - reflexivity.
Defined.

Lemma loadIndex_saveIndex_witness :
  let buffer := indexBytes (mkFileIndex 5 [0; 26; 57] 2) in
  let w := mkWorld (<["measurements.idx" := buffer]> ∅) [] in
  exists w2,
    saveIndex (mkFileIndex 5 [0; 26; 57] 2) "copy.idx"
              (logged w [LogLoading; LogLoaded]) = Returned tt w2
    /\ files w2 !! "copy.idx" = Some buffer.
Proof.
  intros buffer w.
  apply (loadIndex_saveIndex "measurements.idx" "copy.idx" w
           (logged w [LogLoading; LogLoaded])
           (mkFileIndex 5 [0; 26; 57] 2) buffer).
  - reflexivity.
  - vm_compute. reflexivity.
  - reflexivity.
  - reflexivity.
Defined.
